(** * PESEL generator: a shallow embedding of [pesel_generator.py]

    The development follows the Python module top to bottom.  Python
    integers are [Z], a function that can raise returns a [result], and
    everything the program prints, reads or writes goes through an explicit
    [world].  A [string] stands for the Python string with the same ASCII
    characters; the strings the program builds are all of that kind, and a
    statement about a string that comes from outside says so. *)

From Stdlib Require Import ZArith List String Ascii Bool Lia.
From Stdlib Require Import DecimalString Floats Uint63 Sorted.
Import ListNotations.

Open Scope Z_scope.

(* ================================================================= *)
(** ** Python built-ins used by the program *)

Module Py.

Inductive exn : Type :=
| ValueError
| IndexError
| OverflowError
| ZeroDivisionError
| EOFError
| FileNotFoundError
| IsADirectoryError
| PermissionError
| OSError.

(** The outcome of running a piece of Python: a value, an exception, or
    [OutOfFuel] when the step budget given to a [while] loop ran out
    before the loop did. *)
Inductive result (A : Type) : Type :=
| Ok (a : A)
| Raise (e : exn)
| OutOfFuel.

Arguments Ok {A} a.
Arguments Raise {A} e.
Arguments OutOfFuel {A}.

Definition bind {A B : Type} (r : result A) (k : A -> result B) : result B :=
  match r with
  | Ok a => k a
  | Raise e => Raise e
  | OutOfFuel => OutOfFuel
  end.

Definition fmap {A B : Type} (f : A -> B) (r : result A) : result B :=
  bind r (fun a => Ok (f a)).

(** [for x in xs: body], threading the loop's variables as [s]. *)
Fixpoint for_each {A S : Type} (xs : list A) (body : A -> S -> result S)
         (s : S) : result S :=
  match xs with
  | [] => Ok s
  | x :: xs' => bind (body x s) (for_each xs' body)
  end.

(** [range(n)]: [count] integers from [start] upwards. *)
Fixpoint count_up (count : nat) (start : Z) : list Z :=
  match count with
  | O => []
  | S count' => start :: count_up count' (start + 1)
  end.

Definition range (n : Z) : list Z := count_up (Z.to_nat n) 0.

(** [str(n)] for an integer. *)
Definition str (n : Z) : string := NilZero.string_of_int (Z.to_int n).

(** [s * k] for a string [s]: empty when [k <= 0]. *)
Fixpoint repeat_string (s : string) (k : nat) : string :=
  match k with
  | O => EmptyString
  | S k' => (s ++ repeat_string s k')%string
  end.

Definition str_mul (s : string) (k : Z) : string :=
  repeat_string s (Z.to_nat k).

(** [f"{n:0{width}d}"]: the sign first, then zeros up to [width]
    characters in all, then the digits. *)
Definition zero_fill (width : nat) (digits : string) : string :=
  (repeat_string "0" (width - String.length digits) ++ digits)%string.

Definition format_0d (width : nat) (n : Z) : string :=
  if n <? 0
  then ("-" ++ zero_fill (width - 1) (str (- n)))%string
  else zero_fill width (str n).

(** [int(c)] for a one-character ASCII string: the ten digits have a
    value, every other ASCII character raises.  (Python also accepts the
    decimal digits of other scripts; those are no ASCII characters.) *)
Definition int_of_char (c : ascii) : result Z :=
  let code := Z.of_N (N_of_ascii c) in
  if (48 <=? code) && (code <=? 57) then Ok (code - 48) else Raise ValueError.

(** [s[i]] on a string and on a list, negative indices counting from the
    end. *)
Definition str_item (s : string) (i : Z) : result ascii :=
  let j := if i <? 0 then i + Z.of_nat (String.length s) else i in
  if j <? 0 then Raise IndexError
  else match String.get (Z.to_nat j) s with
       | Some c => Ok c
       | None => Raise IndexError
       end.

Definition list_item {A : Type} (l : list A) (i : Z) : result A :=
  let j := if i <? 0 then i + Z.of_nat (List.length l) else i in
  if j <? 0 then Raise IndexError
  else match nth_error l (Z.to_nat j) with
       | Some a => Ok a
       | None => Raise IndexError
       end.

(** [s.lower()] on ASCII letters. *)
Definition lower_ascii (c : ascii) : ascii :=
  let code := N_of_ascii c in
  if ((65 <=? code) && (code <=? 90))%N then ascii_of_N (code + 32) else c.

Fixpoint lower (s : string) : string :=
  match s with
  | EmptyString => EmptyString
  | String c s' => String (lower_ascii c) (lower s')
  end.

(** Binary64 arithmetic: [float(n)] and [int(x)] (truncation towards
    zero) for a finite [x]. *)
Definition float_of_int (n : Z) : float :=
  if n <? 0
  then PrimFloat.opp (PrimFloat.of_uint63 (Uint63.of_Z (- n)))
  else PrimFloat.of_uint63 (Uint63.of_Z n).

Definition int_of_float (x : float) : Z :=
  match Prim2SF x with
  | S754_finite neg m e =>
      let magnitude :=
        if 0 <=? e then Z.pos m * 2 ^ e else Z.pos m / 2 ^ (- e) in
      if neg then - magnitude else magnitude
  | _ => 0
  end.

(** [a / b] on integers (true division). *)
Definition truediv (a b : Z) : result float :=
  if b =? 0 then Raise ZeroDivisionError
  else Ok (PrimFloat.div (float_of_int a) (float_of_int b)).

(** [a // b] on integers (floor division). *)
Definition floordiv (a b : Z) : result Z :=
  if b =? 0 then Raise ZeroDivisionError else Ok (a / b).

End Py.

Export Py.

Notation "x <- e ;; k" := (bind e (fun x => k))
  (at level 61, e at next level, right associativity).

(* ================================================================= *)
(** ** The part of [datetime] the program uses *)

(** A [datetime] whose time of day is midnight, which is all the program
    ever builds. *)
Record datetime : Type := mkdate { year : Z; month : Z; day : Z }.

Module Datetime.

Definition MINYEAR : Z := 1.
Definition MAXYEAR : Z := 9999.

Definition is_leap (y : Z) : bool :=
  (y mod 4 =? 0) && (negb (y mod 100 =? 0) || (y mod 400 =? 0)).

Definition DAYS_IN_MONTH : list Z :=
  [-1; 31; 28; 31; 30; 31; 30; 31; 31; 30; 31; 30; 31].

Definition DAYS_BEFORE_MONTH : list Z :=
  [-1; 0; 31; 59; 90; 120; 151; 181; 212; 243; 273; 304; 334].

Definition days_in_month (y m : Z) : Z :=
  if (m =? 2) && is_leap y then 29 else nth (Z.to_nat m) DAYS_IN_MONTH 0.

Definition days_before_year (y : Z) : Z :=
  let y := y - 1 in y * 365 + y / 4 - y / 100 + y / 400.

Definition days_before_month (y m : Z) : Z :=
  nth (Z.to_nat m) DAYS_BEFORE_MONTH 0
  + (if (2 <? m) && is_leap y then 1 else 0).

(** [d.toordinal()]: 0001-01-01 is day 1. *)
Definition toordinal (d : datetime) : Z :=
  days_before_year d.(year) + days_before_month d.(year) d.(month) + d.(day).

(** The arguments of the constructor are converted to a C [int] first. *)
Definition INT_MIN : Z := - 2147483648.
Definition INT_MAX : Z := 2147483647.

Definition fits_int (n : Z) : bool := (INT_MIN <=? n) && (n <=? INT_MAX).

(** [datetime(y, m, d)]: OverflowError for an argument that is no C
    [int], ValueError for a date that does not exist. *)
Definition new (y m d : Z) : result datetime :=
  if negb (fits_int y && fits_int m && fits_int d)
  then Raise OverflowError
  else if (MINYEAR <=? y) && (y <=? MAXYEAR) && (1 <=? m) && (m <=? 12)
          && (1 <=? d) && (d <=? days_in_month y m)
  then Ok (mkdate y m d)
  else Raise ValueError.

(** [d1 <= d2] *)
Definition le (d1 d2 : datetime) : bool :=
  (d1.(year) <? d2.(year))
  || ((d1.(year) =? d2.(year))
      && ((d1.(month) <? d2.(month))
          || ((d1.(month) =? d2.(month)) && (d1.(day) <=? d2.(day))))).

(** [d1 < d2] *)
Definition lt (d1 d2 : datetime) : bool :=
  (d1.(year) <? d2.(year))
  || ((d1.(year) =? d2.(year))
      && ((d1.(month) <? d2.(month))
          || ((d1.(month) =? d2.(month)) && (d1.(day) <? d2.(day))))).

(** [(d2 - d1).days] *)
Definition days_between (d2 d1 : datetime) : Z := toordinal d2 - toordinal d1.

(** [d + timedelta(days=1)]: the next day of the proleptic Gregorian
    calendar, [OverflowError] past 9999-12-31. *)
Definition add_one_day (d : datetime) : result datetime :=
  if d.(day) <? days_in_month d.(year) d.(month)
  then Ok (mkdate d.(year) d.(month) (d.(day) + 1))
  else if d.(month) <? 12
  then Ok (mkdate d.(year) (d.(month) + 1) 1)
  else if d.(year) <? MAXYEAR
  then Ok (mkdate (d.(year) + 1) 1 1)
  else Raise OverflowError.

End Datetime.

(* ================================================================= *)
(** ** The Encoder *)

(** The [weights] of [calculate_check_digit]. *)
Definition weights : list Z := [1; 3; 7; 9; 1; 3; 7; 9; 1; 3].

(** [def calculate_check_digit(pesel_base: str) -> int] *)
Definition calculate_check_digit (pesel_base : string) : result Z :=
  total <- for_each (range 10)
             (fun i total =>
                c <- str_item pesel_base i ;;
                digit <- int_of_char c ;;
                w <- list_item weights i ;;
                Ok (total + digit * w))
             0 ;;
  let check_digit := (10 - (total mod 10)) mod 10 in
  Ok check_digit.

(** [def generate_sequential_and_sex_digits(sequential_number: int,
    is_male: bool) -> str] *)
Definition generate_sequential_and_sex_digits
           (sequential_number : Z) (is_male : bool) : string :=
  let sequential_number := Z.max 0 (Z.min 9999 sequential_number) in
  let is_odd := sequential_number mod 2 =? 1 in
  let sequential_number :=
    if negb (Bool.eqb is_male is_odd)
    then (if is_male then sequential_number + 1 else sequential_number - 1)
    else sequential_number in
  format_0d 4 sequential_number.

(** [def format_date_for_pesel(date: datetime) -> str] *)
Definition format_date_for_pesel (date : datetime) : string :=
  let year := date.(year) in
  let month := date.(month) in
  let day := date.(day) in
  let month :=
    if (1800 <=? year) && (year <=? 1899) then month + 80
    else if (2000 <=? year) && (year <=? 2099) then month + 20
    else if (2100 <=? year) && (year <=? 2199) then month + 40
    else if (2200 <=? year) && (year <=? 2299) then month + 60
    else month in
  (format_0d 2 (year mod 100) ++ format_0d 2 month ++ format_0d 2 day)%string.

(** [def generate_pesel_for_date(date, sequential_number, is_male) -> str] *)
Definition generate_pesel_for_date
           (date : datetime) (sequential_number : Z) (is_male : bool)
  : result string :=
  let date_str := format_date_for_pesel date in
  let seq_sex_digits :=
    generate_sequential_and_sex_digits sequential_number is_male in
  let pesel_base := (date_str ++ seq_sex_digits)%string in
  check_digit <- calculate_check_digit pesel_base ;;
  Ok (pesel_base ++ str check_digit)%string.


(* ================================================================= *)
(** ** Console, keyboard and files *)

Definition nl : string := String "010"%char EmptyString.
Definition cr : string := String "013"%char EmptyString.

(** What the file system answers, whatever it holds: whether
    [os.path.exists(path)] is true (as it is of a directory, or of a file
    reached under another name), and the exception in which opening the
    path for writing, or writing to it, ends, if it does (no such
    directory, a directory, no permission, a full disk). *)
Record file_system : Type := mkfs {
  fs_exists : string -> bool;
  fs_write_error : string -> option exn
}.

(** [stdout] holds the chunks written so far, oldest first; [stdin] the
    lines still to be read; [files] the writes made so far, the path each
    file was opened under and the lines written to it, latest first;
    [disk] the file system around them. *)
Record world : Type := mkworld_on {
  stdout : list string;
  stdin : list string;
  files : list (string * list string);
  disk : file_system
}.

(** A world on a disk that holds nothing else and lets every file be
    opened. *)
Definition empty_disk : file_system := mkfs (fun _ => false) (fun _ => None).

Definition mkworld (out inp : list string) (fs : list (string * list string))
  : world :=
  mkworld_on out inp fs empty_disk.

(** [print(s, end=e)] *)
Definition print_end (s e : string) (w : world) : world :=
  mkworld_on (w.(stdout) ++ [(s ++ e)%string]) w.(stdin) w.(files) w.(disk).

(** [print(s)] *)
Definition print (s : string) (w : world) : world := print_end s nl w.

(** [input(prompt)] *)
Definition input (prompt : string) (w : world) : result (string * world) :=
  match w.(stdin) with
  | [] => Raise EOFError
  | line :: rest =>
      Ok (line, mkworld_on (w.(stdout) ++ [prompt]) rest w.(files) w.(disk))
  end.

(** [os.path.exists(path)]: a file written under that path, or whatever
    the disk says. *)
Definition path_exists (path : string) (w : world) : bool :=
  existsb (fun entry => String.eqb (fst entry) path) w.(files)
  || w.(disk).(fs_exists) path.

(** [with open(path, 'w') as f: for line in lines: f.write(line)] *)
Definition write_file (path : string) (lines : list string) (w : world)
  : result world :=
  match w.(disk).(fs_write_error) path with
  | Some e => Raise e
  | None =>
      Ok (mkworld_on w.(stdout) w.(stdin) ((path, lines) :: w.(files))
                     w.(disk))
  end.

(* ================================================================= *)
(** ** The Range Enumerator *)

(** The variables of the [while] loop of [generate_pesels_for_year_range]. *)
Record loop_state : Type := mkstate {
  st_current_date : datetime;
  st_pesels : list string;
  st_days_processed : Z;
  st_last_progress : Z;
  st_world : world
}.

(** The body of [for seq_num in range(10000)]. *)
Definition for_seq_num (current_date : datetime) (is_male : option bool)
           (seq_num : Z) (pesels : list string) : result (list string) :=
  match is_male with
  | Some is_male =>
      if (is_male && (seq_num mod 2 =? 1))
         || (negb is_male && (seq_num mod 2 =? 0))
      then
        pesel <- generate_pesel_for_date current_date seq_num is_male ;;
        Ok (pesels ++ [pesel])
      else Ok pesels
  | None =>
      pesel <- generate_pesel_for_date current_date seq_num
                 (seq_num mod 2 =? 1) ;;
      Ok (pesels ++ [pesel])
  end.

(** The body of [while current_date <= end_date]. *)
Definition while_body (total_days bar_width : Z) (is_male : option bool)
           (st : loop_state) : result loop_state :=
  pesels <- for_each (range 10000)
              (for_seq_num st.(st_current_date) is_male) st.(st_pesels) ;;
  let days_processed := st.(st_days_processed) + 1 in
  ratio <- truediv days_processed total_days ;;
  let current_progress :=
    int_of_float (PrimFloat.mul ratio (float_of_int 100)) in
  shown <-
    (if negb (current_progress =? st.(st_last_progress))
     then
       filled_length <- floordiv (bar_width * days_processed) total_days ;;
       let progress_bar :=
         (str_mul "=" filled_length
          ++ str_mul "-" (bar_width - filled_length))%string in
       Ok (print_end
             (cr ++ "Progress: [" ++ progress_bar ++ "] "
                 ++ str current_progress ++ "%")%string
             EmptyString st.(st_world),
           current_progress)
     else Ok (st.(st_world), st.(st_last_progress))) ;;
  current_date <- Datetime.add_one_day st.(st_current_date) ;;
  Ok (mkstate current_date pesels days_processed (snd shown) (fst shown)).

(** [while current_date <= end_date: ...], with a budget of [fuel] tests of
    the loop condition. *)
Fixpoint while_loop (fuel : nat) (end_date : datetime)
         (total_days bar_width : Z) (is_male : option bool)
         (st : loop_state) : result loop_state :=
  match fuel with
  | O => OutOfFuel
  | S fuel' =>
      if Datetime.le st.(st_current_date) end_date
      then
        st' <- while_body total_days bar_width is_male st ;;
        while_loop fuel' end_date total_days bar_width is_male st'
      else Ok st
  end.

(** [def generate_pesels_for_year_range(start_year, end_year, is_male=None)],
    run with a budget of [fuel] loop tests.  The function returns the list
    and leaves its progress bar on the console. *)
Definition run_generate_pesels_for_year_range (fuel : nat)
           (start_year end_year : Z) (is_male : option bool) (w : world)
  : result (list string * world) :=
  let pesels := [] in
  current_date <- Datetime.new start_year 1 1 ;;
  end_date <- Datetime.new end_year 12 31 ;;
  let total_days := Datetime.days_between end_date current_date + 1 in
  let days_processed := 0 in
  let last_progress := -1 in
  let bar_width := 50 in
  st <- while_loop fuel end_date total_days bar_width is_male
          (mkstate current_date pesels days_processed last_progress w) ;;
  Ok (st.(st_pesels), print EmptyString st.(st_world)).

(** One test of the loop condition per day of the range, and the last one
    that leaves the loop. *)
Definition loop_budget (start_year end_year : Z) : nat :=
  S (Z.to_nat (Datetime.days_between (mkdate end_year 12 31)
                                     (mkdate start_year 1 1) + 1)).

Definition generate_pesels_for_year_range
           (start_year end_year : Z) (is_male : option bool) (w : world)
  : result (list string * world) :=
  run_generate_pesels_for_year_range (loop_budget start_year end_year)
    start_year end_year is_male w.

(* ================================================================= *)
(** ** The command line *)

Module Args.

Inductive sex_choice : Type := male | female.

(** What [parser.parse_args()] returns. *)
Record t : Type := mk {
  start_year : Z;
  end_year : option Z;
  output : option string;
  sex : option sex_choice
}.

End Args.

Definition year_bounds_error : string :=
  "Error: Year range must be between 1800 and 2299".

Definition year_order_error : string :=
  "Error: Start year must be less than or equal to end year".

(** [def main()], from the parsed arguments on. *)
Definition main (args : Args.t) (w : world) : result world :=
  let start_year := args.(Args.start_year) in
  let end_year :=
    match args.(Args.end_year) with
    | None => start_year
    | Some end_year => end_year
    end in
  if (start_year <? 1800) || (end_year >? 2299)
  then Ok (print year_bounds_error w)
  else if start_year >? end_year
  then Ok (print year_order_error w)
  else
    let is_male :=
      match args.(Args.sex) with
      | Some Args.male => Some true
      | Some Args.female => Some false
      | None => None
      end in
    let w :=
      print ("Generating PESEL numbers for years " ++ str start_year
               ++ "-" ++ str end_year ++ "...")%string w in
    let w :=
      match is_male with
      | Some is_male =>
          print ("Generating only "
                   ++ (if is_male then "male" else "female")
                   ++ " PESELs")%string w
      | None => w
      end in
    generated <- generate_pesels_for_year_range start_year end_year is_male w ;;
    let pesels := fst generated in
    let w := snd generated in
    let count := str (Z.of_nat (List.length pesels)) in
    match args.(Args.output) with
    | Some (String c path' as path) =>
        let save (w : world) : result world :=
          w <- write_file path
                 (map (fun pesel => (pesel ++ nl)%string) pesels) w ;;
          Ok (print ("Generated " ++ count ++ " PESEL numbers and saved to "
                       ++ path)%string w) in
        if path_exists path w
        then
          answer <- input ("File " ++ path
                             ++ " already exists. Overwrite? [y/N] ")%string w ;;
          let response := fst answer in
          let w := snd answer in
          if negb (String.eqb (lower response) "y")
          then Ok (print "Operation cancelled." w)
          else save w
        else save w
    | _ =>
        let w := fold_left (fun w pesel => print pesel w) pesels w in
        Ok (print (nl ++ "Generated " ++ count ++ " PESEL numbers")%string w)
    end.

(* ================================================================= *)
(** ** Vocabulary of the specification *)

(** A date the [datetime] constructor accepts. *)
Definition valid_date (d : datetime) : Prop :=
  1 <= d.(year) <= 9999 /\ 1 <= d.(month) <= 12
  /\ 1 <= d.(day) <= Datetime.days_in_month d.(year) d.(month).

(** The character of a decimal digit, and the digits a string spells. *)
Definition digit_char (k : Z) : ascii := ascii_of_N (Z.to_N (48 + k)).

Definition is_digit (c : ascii) : bool :=
  let code := Z.of_N (N_of_ascii c) in (48 <=? code) && (code <=? 57).

Fixpoint all_digits (s : string) : bool :=
  match s with
  | EmptyString => true
  | String c s' => is_digit c && all_digits s'
  end.

Fixpoint digit_values (s : string) : list Z :=
  match s with
  | EmptyString => []
  | String c s' => (Z.of_N (N_of_ascii c) - 48) :: digit_values s'
  end.

(** The number a string of decimal digits denotes. *)
Definition decimal_value (s : string) : Z :=
  fold_left (fun acc digit => 10 * acc + digit) (digit_values s) 0.

(** The checksum as the specification words it: multiply each digit by its
    weight, sum, and take [(10 - (sum mod 10)) mod 10]. *)
Fixpoint weighted_sum (digits ws : list Z) : Z :=
  match digits, ws with
  | digit :: digits', w :: ws' => digit * w + weighted_sum digits' ws'
  | _, _ => 0
  end.

Definition checksum_formula (digits : list Z) : Z :=
  (10 - (weighted_sum digits [1; 3; 7; 9; 1; 3; 7; 9; 1; 3]) mod 10) mod 10.

(** The fields of an identifier. *)
Definition date_block (pesel : string) : string := substring 0 6 pesel.
Definition month_field (pesel : string) : string := substring 2 2 pesel.
Definition seq_sex_block (pesel : string) : string := substring 6 4 pesel.
Definition check_field (pesel : string) : string := substring 10 1 pesel.

(** Two and four decimal digits, written out character by character. *)
Definition two_digits (n : Z) : string :=
  String (digit_char (n / 10)) (String (digit_char (n mod 10)) EmptyString).

Definition four_digits (n : Z) : string :=
  String (digit_char (n / 1000))
    (String (digit_char (n / 100 mod 10))
       (String (digit_char (n / 10 mod 10))
          (String (digit_char (n mod 10)) EmptyString))).

(** The sequential number as the specification words it: clamp into
    [0, 9999], then move by one towards the requested parity. *)
Definition clamp (seq_number : Z) : Z :=
  if seq_number <? 0 then 0
  else if 9999 <? seq_number then 9999
  else seq_number.

Definition adjust (seq_number : Z) (is_male : bool) : Z :=
  if Bool.eqb (Z.odd seq_number) is_male then seq_number
  else if is_male then seq_number + 1
  else seq_number - 1.

Definition encoded_seq (seq_number : Z) (is_male : bool) : Z :=
  adjust (clamp seq_number) is_male.

(** The month offsets as the specification tabulates them. *)
Definition month_offset_table : list (Z * Z * Z) :=
  [(1800, 1899, 80); (1900, 1999, 0); (2000, 2099, 20);
   (2100, 2199, 40); (2200, 2299, 60)].

Fixpoint lookup_offset (table : list (Z * Z * Z)) (y : Z) : option Z :=
  match table with
  | [] => None
  | (first, last, offset) :: table' =>
      if (first <=? y) && (y <=? last) then Some offset
      else lookup_offset table' y
  end.

Definition month_offset (y : Z) : option Z := lookup_offset month_offset_table y.

(** The month field the source computes, for any year. *)
Definition encoded_month (d : datetime) : Z :=
  d.(month) + match month_offset d.(year) with Some offset => offset | None => 0 end.

(** The ten digits in front of the check digit, and the whole identifier,
    written out from the three inputs. *)
Definition base_digits (d : datetime) (n : Z) (is_male : bool) : list Z :=
  let yy := d.(year) mod 100 in
  let mm := encoded_month d in
  let dd := d.(day) in
  let q := encoded_seq n is_male in
  [yy / 10; yy mod 10; mm / 10; mm mod 10; dd / 10; dd mod 10;
   q / 1000; q / 100 mod 10; q / 10 mod 10; q mod 10].

Definition pesel_text (d : datetime) (n : Z) (is_male : bool) : string :=
  (two_digits (d.(year) mod 100) ++ two_digits (encoded_month d)
     ++ two_digits d.(day) ++ four_digits (encoded_seq n is_male)
     ++ String (digit_char (checksum_formula (base_digits d n is_male)))
          EmptyString)%string.

(** Which sequential numbers of a day the enumerator keeps under a sex
    filter, and the sex it encodes them with. *)
Definition selected (is_male : option bool) (seq_num : Z) : bool :=
  match is_male with
  | Some is_male => Bool.eqb (Z.odd seq_num) is_male
  | None => true
  end.

Definition sex_of (is_male : option bool) (seq_num : Z) : bool :=
  match is_male with
  | Some is_male => is_male
  | None => Z.odd seq_num
  end.

(** The identifiers of one day, in the order the inner loop appends them. *)
Definition day_texts (is_male : option bool) (d : datetime) : list string :=
  map (fun n => pesel_text d n (sex_of is_male n))
      (filter (selected is_male) (range 10000)).

(** The (date, sequential number) pairs of one day, in the same order. *)
Definition day_pairs (is_male : option bool) (d : datetime)
  : list (datetime * Z) :=
  map (pair d) (filter (selected is_male) (range 10000)).

(** The calendar successor, and the [k] days from [d] on. *)
Definition next_day (d : datetime) : datetime :=
  if d.(day) <? Datetime.days_in_month d.(year) d.(month)
  then mkdate d.(year) d.(month) (d.(day) + 1)
  else if d.(month) <? 12
  then mkdate d.(year) (d.(month) + 1) 1
  else mkdate (d.(year) + 1) 1 1.

Fixpoint days_from (k : nat) (d : datetime) : list datetime :=
  match k with
  | O => []
  | S k' => d :: days_from k' (next_day d)
  end.

Definition year_length (y : Z) : Z := if Datetime.is_leap y then 366 else 365.

(** The days from January 1 of [start_year] to December 31 of [end_year]. *)
Definition first_day (start_year : Z) : datetime := mkdate start_year 1 1.
Definition last_day (end_year : Z) : datetime := mkdate end_year 12 31.

Definition day_count (start_year end_year : Z) : nat :=
  Z.to_nat (Datetime.days_between (last_day end_year) (first_day start_year) + 1).

Definition range_days (start_year end_year : Z) : list datetime :=
  days_from (day_count start_year end_year) (first_day start_year).

(** The (date, sequential number) pairs of a range, day after day. *)
Definition emitted_pairs (is_male : option bool) (start_year end_year : Z)
  : list (datetime * Z) :=
  flat_map (day_pairs is_male) (range_days start_year end_year).

(** The order of emission: by date, then by sequential number. *)
Definition emitted_before (e1 e2 : datetime * Z) : Prop :=
  Datetime.lt (fst e1) (fst e2) = true
  \/ (fst e1 = fst e2 /\ snd e1 < snd e2).

(** The elements of an output whose position within its day, counted from
    0, satisfies [keep]: every day contributes 10000 positions. *)
Fixpoint keep_positions {A : Type} (keep : nat -> bool) (i : nat) (l : list A)
  : list A :=
  match l with
  | [] => []
  | x :: l' =>
      if keep i then x :: keep_positions keep (S i) l'
      else keep_positions keep (S i) l'
  end.

Definition at_sequential_numbers (keep : Z -> bool) (out : list string)
  : list string :=
  keep_positions (fun i => keep (Z.of_nat i mod 10000)) 0 out.

(** Two loop states that differ at most in what is on the console. *)
Definition same_variables (st1 st2 : loop_state) : Prop :=
  st1.(st_current_date) = st2.(st_current_date)
  /\ st1.(st_pesels) = st2.(st_pesels)
  /\ st1.(st_days_processed) = st2.(st_days_processed)
  /\ st1.(st_last_progress) = st2.(st_last_progress).

(** Two runs that end the same way: the same exception, or values related
    by [R]. *)
Definition same_outcome {A : Type} (R : A -> A -> Prop) (r1 r2 : result A)
  : Prop :=
  match r1, r2 with
  | Ok a1, Ok a2 => R a1 a2
  | Raise e1, Raise e2 => e1 = e2
  | OutOfFuel, OutOfFuel => True
  | _, _ => False
  end.

(** What the caller of the enumerator holds once a run with a given budget
    has stopped: the returned list, or nothing. *)
Definition available (r : result (list string * world)) : list string :=
  match r with
  | Ok (pesels, _) => pesels
  | _ => []
  end.

(** Lazy emission: at some budget the caller already holds an identifier
    while the result set is not complete yet. *)
Definition streams_lazily (start_year end_year : Z) (is_male : option bool)
           (w : world) : Prop :=
  exists fuel : nat,
    available (run_generate_pesels_for_year_range fuel start_year end_year
                 is_male w) <> []
    /\ available (run_generate_pesels_for_year_range fuel start_year end_year
                    is_male w)
       <> available (generate_pesels_for_year_range start_year end_year
                       is_male w).



(** Identifiers emitted per day under a filter. *)
Definition per_day (is_male : option bool) : Z :=
  match is_male with Some _ => 5000 | None => 10000 end.

Ltac valid_date_by_computation :=
  unfold valid_date; cbv; repeat split; discriminate.

Ltac month_cases m :=
  let H := fresh "Hcases" in
  assert (H : m = 1 \/ m = 2 \/ m = 3 \/ m = 4 \/ m = 5 \/ m = 6 \/ m = 7
              \/ m = 8 \/ m = 9 \/ m = 10 \/ m = 11 \/ m = 12) by lia;
  repeat (destruct H as [-> | H]); [.. | subst m].

Ltac compare_fields :=
  repeat match goal with
         | H : context [?a <? ?b] |- _ => destruct (Z.ltb_spec a b)
         | H : context [?a <=? ?b] |- _ => destruct (Z.leb_spec a b)
         | H : context [?a =? ?b] |- _ => destruct (Z.eqb_spec a b)
         | |- context [?a <? ?b] => destruct (Z.ltb_spec a b)
         | |- context [?a <=? ?b] => destruct (Z.leb_spec a b)
         | |- context [?a =? ?b] => destruct (Z.eqb_spec a b)
         end;
  cbn [andb orb negb] in *.

(* ================================================================= *)
(** ** Further vocabulary *)

(** The weights of the usual eleven-digit PESEL validation. *)
Definition validation_weights : list Z := [1; 3; 7; 9; 1; 3; 7; 9; 1; 3; 1].

(** A well-formed identifier: eleven ASCII digits that pass the
    validation. *)
Definition well_formed (pesel : string) : Prop :=
  String.length pesel = 11%nat
  /\ all_digits pesel = true
  /\ weighted_sum (digit_values pesel) validation_weights mod 10 = 0.

(** A string of ASCII characters only: the strings on which [int] and
    [lower] are modelled. *)
Definition ascii_only (s : string) : bool :=
  forallb (fun c => (N_of_ascii c <? 128)%N) (list_ascii_of_string s).

(** What the enumerator writes to the console: chunks of its progress bar
    and the final line feed. *)
Definition progress_chunk (chunk : string) : Prop :=
  chunk = nl
  \/ exists rest : string, chunk = (cr ++ "Progress: [" ++ rest)%string.

(** The second world is the first one with more written on the console:
    nothing read, no file written, the same disk. *)
Definition console_grew (chunks : list string) (w w' : world) : Prop :=
  w'.(stdout) = w.(stdout) ++ chunks
  /\ w'.(stdin) = w.(stdin)
  /\ w'.(files) = w.(files)
  /\ w'.(disk) = w.(disk).

(** The arguments as [main] reads them. *)
Definition effective_end_year (args : Args.t) : Z :=
  match args.(Args.end_year) with
  | Some end_year => end_year
  | None => args.(Args.start_year)
  end.

Definition sex_filter (args : Args.t) : option bool :=
  match args.(Args.sex) with
  | Some Args.male => Some true
  | Some Args.female => Some false
  | None => None
  end.

(** The lines [main] writes for a list of identifiers, and its closing
    lines. *)
Definition pesel_lines (pesels : list string) : list string :=
  map (fun pesel => (pesel ++ nl)%string) pesels.

Definition count_line (pesels : list string) : string :=
  ((nl ++ "Generated " ++ str (Z.of_nat (List.length pesels))
       ++ " PESEL numbers") ++ nl)%string.




Ltac decide_digits :=
  repeat match goal with
         | |- context [is_digit ?c] => destruct (is_digit c); cbv beta iota
         end.

Ltac check_digit_by_cases :=
  cbv - [int_of_char is_digit N_of_ascii Z.of_N Z.add Z.mul Z.sub Z.modulo];
  repeat match goal with
         | |- context [int_of_char ?c] =>
             change (int_of_char c)
               with (if is_digit c
                     then Ok (Z.of_N (N_of_ascii c) - 48)
                     else @Raise Z ValueError)
         end;
  decide_digits; try reflexivity.

Ltac same_char Hsame j :=
  try (let E := fresh "E" in
       assert (E := Hsame j ltac:(lia) ltac:(lia));
       cbn [String.get] in E; injection E as E; subst).

(* ================================================================= *)
(** ** Concrete runs *)

Example check_digit_of_4405140135 :
  calculate_check_digit "4405140135" = Ok 9.
Proof. vm_compute. reflexivity. Qed.

Example check_digit_of_short_string :
  calculate_check_digit "4405" = Raise IndexError.
Proof. vm_compute. reflexivity. Qed.

Example check_digit_of_non_digit :
  calculate_check_digit "44x5140135" = Raise ValueError.
Proof. vm_compute. reflexivity. Qed.

Example seq_digits_examples :
  generate_sequential_and_sex_digits 0 true = "0001"%string
  /\ generate_sequential_and_sex_digits 9999 false = "9998"%string
  /\ generate_sequential_and_sex_digits (-5) false = "0000"%string
  /\ generate_sequential_and_sex_digits 123456 true = "9999"%string.
Proof. vm_compute. repeat split. Qed.

Example format_0d_examples :
  format_0d 4 (-1) = "-001"%string
  /\ format_0d 4 12345 = "12345"%string
  /\ format_0d 2 7 = "07"%string.
Proof. vm_compute. repeat split. Qed.

Example encode_2020_01_01 :
  generate_pesel_for_date (mkdate 2020 1 1) 0 true = Ok "20210100019"%string.
Proof. vm_compute. reflexivity. Qed.

Example encode_1800_01_01 :
  generate_pesel_for_date (mkdate 1800 1 1) 9999 false
  = Ok "00810199985"%string.
Proof. vm_compute. reflexivity. Qed.

Example toordinal_2026_11_03 : Datetime.toordinal (mkdate 2026 11 3) = 739923.
Proof. reflexivity. Qed.

Example add_one_day_examples :
  Datetime.add_one_day (mkdate 2024 2 28) = Ok (mkdate 2024 2 29)
  /\ Datetime.add_one_day (mkdate 2023 2 28) = Ok (mkdate 2023 3 1)
  /\ Datetime.add_one_day (mkdate 1999 12 31) = Ok (mkdate 2000 1 1)
  /\ Datetime.add_one_day (mkdate 9999 12 31) = Raise OverflowError.
Proof. vm_compute. repeat split. Qed.

(** Binary64 at work: 29 days out of 100 show as 28%. *)
Example progress_of_29_days_in_100 :
  fmap (fun ratio => int_of_float (PrimFloat.mul ratio (float_of_int 100)))
       (truediv 29 100)
  = Ok 28.
Proof. vm_compute. reflexivity. Qed.

Example last_day_of_1999_males :
  fmap (fun st => (st.(st_current_date), List.length st.(st_pesels),
                   st.(st_days_processed), st.(st_last_progress),
                   st.(st_world).(stdout)))
       (while_body 365 50 (Some true)
                   (mkstate (mkdate 1999 12 31) [] 364 99 (mkworld [] [] [])))
  = Ok (mkdate 2000 1 1, 5000%nat, 365, 100,
        [(cr ++ "Progress: ["
             ++ "=================================================="
             ++ "] 100%")%string]).
Proof. vm_compute. reflexivity. Qed.

Example main_rejects_1700 :
  main (Args.mk 1700 None None None) (mkworld [] [] [])
  = Ok (mkworld [(year_bounds_error ++ nl)%string] [] []).
Proof. vm_compute. reflexivity. Qed.

Example main_rejects_2001_2000 :
  main (Args.mk 2001 (Some 2000) (Some "out.txt"%string) (Some Args.female))
       (mkworld [] [] [])
  = Ok (mkworld [(year_order_error ++ nl)%string] [] []).
Proof. vm_compute. reflexivity. Qed.

(* ================================================================= *)
(** ** Decimal formatting and the fields of an identifier *)

Lemma in_count_up (count : nat) (start k : Z) :
  In k (count_up count start) <-> start <= k < start + Z.of_nat count.
Proof.
  revert start. induction count as [| count IH]; intros start; cbn [count_up In].
  - lia.
  - rewrite IH. lia.
Qed.

Lemma in_range (n k : Z) : In k (range n) <-> 0 <= k < n.
Proof.
  unfold range. rewrite in_count_up. lia.
Qed.

Lemma range_complete (n k : Z) : 0 <= k < n -> In k (range n).
Proof.
  apply in_range.
Qed.


Lemma forallb_range (P : Z -> bool) (n : Z) :
  forallb P (range n) = true -> forall k, 0 <= k < n -> P k = true.
Proof.
  intros Hall k Hk. rewrite forallb_forall in Hall.
  apply Hall, range_complete, Hk.
Qed.

Lemma format_0d_2 (n : Z) : 0 <= n < 100 -> format_0d 2 n = two_digits n.
Proof.
  intros Hn. apply String.eqb_eq.
  apply (forallb_range (fun k => String.eqb (format_0d 2 k) (two_digits k)) 100);
    [vm_compute; reflexivity | exact Hn].
Qed.

Lemma format_0d_4 (n : Z) : 0 <= n < 10000 -> format_0d 4 n = four_digits n.
Proof.
  intros Hn. apply String.eqb_eq.
  apply (forallb_range (fun k => String.eqb (format_0d 4 k) (four_digits k)) 10000);
    [vm_compute; reflexivity | exact Hn].
Qed.

Lemma str_digit (n : Z) :
  0 <= n < 10 -> str n = String (digit_char n) EmptyString.
Proof.
  intros Hn. apply String.eqb_eq.
  apply (forallb_range
           (fun k => String.eqb (str k) (String (digit_char k) EmptyString)) 10);
    [vm_compute; reflexivity | exact Hn].
Qed.

Lemma digit_char_code (k : Z) :
  0 <= k < 10 -> Z.of_N (N_of_ascii (digit_char k)) = 48 + k.
Proof.
  intros Hk. apply Z.eqb_eq.
  apply (forallb_range
           (fun k => Z.of_N (N_of_ascii (digit_char k)) =? 48 + k) 10);
    [vm_compute; reflexivity | exact Hk].
Qed.

Lemma int_of_char_digit (k : Z) :
  0 <= k < 10 -> int_of_char (digit_char k) = Ok k.
Proof.
  intros Hk. unfold int_of_char. rewrite (digit_char_code k Hk).
  replace ((48 <=? 48 + k) && (48 + k <=? 57)) with true
    by (symmetry; apply andb_true_iff; split; apply Z.leb_le; lia).
  f_equal. lia.
Qed.

Lemma is_digit_char (k : Z) : 0 <= k < 10 -> is_digit (digit_char k) = true.
Proof.
  intros Hk. unfold is_digit. rewrite (digit_char_code k Hk).
  apply andb_true_iff; split; apply Z.leb_le; lia.
Qed.

Lemma clamp_range (n : Z) : 0 <= clamp n <= 9999.
Proof.
  unfold clamp.
  destruct (Z.ltb_spec n 0); [lia |].
  destruct (Z.ltb_spec 9999 n); lia.
Qed.

Lemma clamp_max_min (n : Z) : Z.max 0 (Z.min 9999 n) = clamp n.
Proof.
  unfold clamp.
  destruct (Z.ltb_spec n 0); [lia |].
  destruct (Z.ltb_spec 9999 n); lia.
Qed.

Lemma odd_mod_2 (n : Z) : (n mod 2 =? 1) = Z.odd n.
Proof.
  rewrite Zodd_mod. reflexivity.
Qed.

Lemma encoded_seq_range (n : Z) (is_male : bool) :
  0 <= encoded_seq n is_male <= 9999.
Proof.
  unfold encoded_seq, adjust.
  pose proof (clamp_range n) as Hc.
  destruct (Bool.eqb (Z.odd (clamp n)) is_male) eqn:Hp; [exact Hc |].
  destruct is_male.
  - (* an even value is at most 9998 *)
    destruct (Z.odd (clamp n)) eqn:Ho; [discriminate |].
    rewrite Zodd_mod in Ho. apply Z.eqb_neq in Ho.
    assert (clamp n <> 9999) by (intros E; rewrite E in Ho; apply Ho; reflexivity).
    lia.
  - (* an odd value is at least 1 *)
    destruct (Z.odd (clamp n)) eqn:Ho; [| discriminate].
    assert (clamp n <> 0) by (intros E; rewrite E in Ho; discriminate).
    lia.
Qed.

Lemma encoded_seq_parity (n : Z) (is_male : bool) :
  Z.odd (encoded_seq n is_male) = is_male.
Proof.
  unfold encoded_seq, adjust.
  destruct (Bool.eqb (Z.odd (clamp n)) is_male) eqn:Hp.
  - apply Bool.eqb_prop, Hp.
  - destruct is_male.
    + rewrite Z.add_1_r, Z.odd_succ.
      destruct (Z.odd (clamp n)) eqn:Ho; [discriminate |].
      rewrite <- Z.negb_odd, Ho. reflexivity.
    + rewrite Z.sub_1_r, Z.odd_pred.
      destruct (Z.odd (clamp n)) eqn:Ho; [| discriminate].
      rewrite <- Z.negb_odd, Ho. reflexivity.
Qed.

Lemma generate_sequential_and_sex_digits_encoded (n : Z) (is_male : bool) :
  generate_sequential_and_sex_digits n is_male
  = format_0d 4 (encoded_seq n is_male).
Proof.
  unfold generate_sequential_and_sex_digits, encoded_seq, adjust.
  rewrite clamp_max_min, odd_mod_2.
  destruct is_male, (Z.odd (clamp n)); reflexivity.
Qed.

Lemma generate_sequential_and_sex_digits_four (n : Z) (is_male : bool) :
  generate_sequential_and_sex_digits n is_male
  = four_digits (encoded_seq n is_male).
Proof.
  rewrite generate_sequential_and_sex_digits_encoded.
  apply format_0d_4. pose proof (encoded_seq_range n is_male). lia.
Qed.

Lemma days_in_month_range (y m : Z) :
  1 <= m <= 12 -> 28 <= Datetime.days_in_month y m <= 31.
Proof.
  intros Hm. unfold Datetime.days_in_month.
  destruct ((m =? 2) && Datetime.is_leap y); [lia |].
  assert (Hcases : m = 1 \/ m = 2 \/ m = 3 \/ m = 4 \/ m = 5 \/ m = 6 \/ m = 7
                   \/ m = 8 \/ m = 9 \/ m = 10 \/ m = 11 \/ m = 12) by lia.
  repeat (destruct Hcases as [-> | Hcases]; [simpl; lia |]).
  subst m. simpl. lia.
Qed.

Lemma encoded_month_source (d : datetime) :
  (if (1800 <=? d.(year)) && (d.(year) <=? 1899) then d.(month) + 80
   else if (2000 <=? d.(year)) && (d.(year) <=? 2099) then d.(month) + 20
   else if (2100 <=? d.(year)) && (d.(year) <=? 2199) then d.(month) + 40
   else if (2200 <=? d.(year)) && (d.(year) <=? 2299) then d.(month) + 60
   else d.(month)) = encoded_month d.
Proof.
  unfold encoded_month, month_offset, month_offset_table, lookup_offset.
  destruct ((1800 <=? year d) && (year d <=? 1899)) eqn:H18; [reflexivity |].
  destruct ((1900 <=? year d) && (year d <=? 1999)) eqn:H19.
  - replace ((2000 <=? year d) && (year d <=? 2099)) with false by lia.
    replace ((2100 <=? year d) && (year d <=? 2199)) with false by lia.
    replace ((2200 <=? year d) && (year d <=? 2299)) with false by lia.
    lia.
  - destruct ((2000 <=? year d) && (year d <=? 2099)); [reflexivity |].
    destruct ((2100 <=? year d) && (year d <=? 2199)); [reflexivity |].
    destruct ((2200 <=? year d) && (year d <=? 2299)); [reflexivity | lia].
Qed.

Lemma encoded_month_range (d : datetime) :
  1 <= d.(month) <= 12 -> 1 <= encoded_month d <= 92.
Proof.
  intros Hm. unfold encoded_month, month_offset, month_offset_table, lookup_offset.
  repeat match goal with
         | |- context [if ?b then _ else _] => destruct b
         end; lia.
Qed.

Lemma format_date_for_pesel_fields (d : datetime) :
  valid_date d ->
  format_date_for_pesel d
  = (two_digits (d.(year) mod 100) ++ two_digits (encoded_month d)
       ++ two_digits d.(day))%string.
Proof.
  intros (Hy & Hm & Hd).
  pose proof (days_in_month_range d.(year) d.(month) Hm) as Hdim.
  pose proof (encoded_month_range d Hm) as Hem.
  pose proof (Z.mod_pos_bound d.(year) 100 ltac:(lia)) as Hyy.
  unfold format_date_for_pesel. cbv zeta.
  rewrite (encoded_month_source d).
  rewrite !format_0d_2 by lia. reflexivity.
Qed.

Lemma calculate_check_digit_chars
      (c0 c1 c2 c3 c4 c5 c6 c7 c8 c9 : ascii) (rest : string)
      (v0 v1 v2 v3 v4 v5 v6 v7 v8 v9 : Z) :
  int_of_char c0 = Ok v0 -> int_of_char c1 = Ok v1 ->
  int_of_char c2 = Ok v2 -> int_of_char c3 = Ok v3 ->
  int_of_char c4 = Ok v4 -> int_of_char c5 = Ok v5 ->
  int_of_char c6 = Ok v6 -> int_of_char c7 = Ok v7 ->
  int_of_char c8 = Ok v8 -> int_of_char c9 = Ok v9 ->
  calculate_check_digit
    (String c0 (String c1 (String c2 (String c3 (String c4
       (String c5 (String c6 (String c7 (String c8 (String c9 rest))))))))))
  = Ok (checksum_formula [v0; v1; v2; v3; v4; v5; v6; v7; v8; v9]).
Proof.
  intros H0 H1 H2 H3 H4 H5 H6 H7 H8 H9.
  unfold calculate_check_digit.
  change (range 10) with [0; 1; 2; 3; 4; 5; 6; 7; 8; 9].
  cbv - [int_of_char Z.add Z.mul Z.modulo Z.sub].
  rewrite H0, H1, H2, H3, H4, H5, H6, H7, H8, H9.
  do 4 f_equal. lia.
Qed.

Lemma checksum_formula_range (digits : list Z) :
  0 <= checksum_formula digits < 10.
Proof.
  unfold checksum_formula. apply Z.mod_pos_bound. lia.
Qed.

Lemma base_digits_range (d : datetime) (n : Z) (is_male : bool) :
  valid_date d -> Forall (fun v => 0 <= v < 10) (base_digits d n is_male).
Proof.
  intros (Hy & Hm & Hd).
  pose proof (days_in_month_range d.(year) d.(month) Hm) as Hdim.
  pose proof (encoded_month_range d Hm) as Hem.
  pose proof (Z.mod_pos_bound d.(year) 100 ltac:(lia)) as Hyy.
  pose proof (encoded_seq_range n is_male) as Hq.
  unfold base_digits.
  repeat (apply Forall_cons; [| ]); try apply Forall_nil;
    try (apply Z.mod_pos_bound; lia);
    (split; [apply Z.div_pos; lia | apply Z.div_lt_upper_bound; lia]).
Qed.

Lemma generate_pesel_for_date_text (d : datetime) (n : Z) (is_male : bool) :
  valid_date d -> generate_pesel_for_date d n is_male = Ok (pesel_text d n is_male).
Proof.
  intros Hd.
  pose proof (base_digits_range d n is_male Hd) as Hdigits.
  unfold base_digits in Hdigits.
  repeat match type of Hdigits with
         | Forall _ (_ :: _) =>
             let Hhead := fresh "Hv" in
             apply Forall_cons_iff in Hdigits; destruct Hdigits as [Hhead Hdigits]
         end.
  unfold generate_pesel_for_date.
  rewrite (format_date_for_pesel_fields d Hd).
  rewrite generate_sequential_and_sex_digits_four.
  unfold two_digits, four_digits. cbn [String.append].
  erewrite calculate_check_digit_chars by (apply int_of_char_digit; eassumption).
  cbn [bind]. rewrite str_digit by apply checksum_formula_range.
  reflexivity.
Qed.

Lemma pesel_text_length (d : datetime) (n : Z) (is_male : bool) :
  String.length (pesel_text d n is_male) = 11%nat.
Proof. reflexivity. Qed.

Lemma pesel_text_seq_sex_block (d : datetime) (n : Z) (is_male : bool) :
  seq_sex_block (pesel_text d n is_male) = four_digits (encoded_seq n is_male).
Proof. reflexivity. Qed.

Lemma pesel_text_date_block (d : datetime) (n : Z) (is_male : bool) :
  date_block (pesel_text d n is_male)
  = (two_digits (d.(year) mod 100) ++ two_digits (encoded_month d)
       ++ two_digits d.(day))%string.
Proof. reflexivity. Qed.

Lemma pesel_text_month_field (d : datetime) (n : Z) (is_male : bool) :
  month_field (pesel_text d n is_male) = two_digits (encoded_month d).
Proof. reflexivity. Qed.

Lemma digit_values_digit_char (k : Z) (s : string) :
  0 <= k < 10 ->
  digit_values (String (digit_char k) s) = k :: digit_values s.
Proof.
  intros Hk. cbn [digit_values]. rewrite (digit_char_code k Hk). f_equal. lia.
Qed.

Lemma pesel_text_base_digits (d : datetime) (n : Z) (is_male : bool) :
  valid_date d ->
  digit_values (substring 0 10 (pesel_text d n is_male)) = base_digits d n is_male.
Proof.
  intros Hd.
  pose proof (base_digits_range d n is_male Hd) as Hdigits.
  unfold base_digits in *.
  repeat match type of Hdigits with
         | Forall _ (_ :: _) =>
             let Hhead := fresh "Hv" in
             apply Forall_cons_iff in Hdigits; destruct Hdigits as [Hhead Hdigits]
         end.
  change (substring 0 10 (pesel_text d n is_male))
    with (two_digits (d.(year) mod 100) ++ two_digits (encoded_month d)
            ++ two_digits d.(day) ++ four_digits (encoded_seq n is_male))%string.
  unfold two_digits, four_digits. cbn [String.append].
  rewrite !digit_values_digit_char by assumption. reflexivity.
Qed.

Lemma pesel_text_all_digits (d : datetime) (n : Z) (is_male : bool) :
  valid_date d -> all_digits (pesel_text d n is_male) = true.
Proof.
  intros Hd.
  pose proof (base_digits_range d n is_male Hd) as Hdigits.
  pose proof (checksum_formula_range (base_digits d n is_male)) as Hcheck.
  unfold pesel_text. unfold base_digits in Hdigits.
  repeat match type of Hdigits with
         | Forall _ (_ :: _) =>
             let Hhead := fresh "Hv" in
             apply Forall_cons_iff in Hdigits; destruct Hdigits as [Hhead Hdigits]
         end.
  unfold two_digits, four_digits. cbn [String.append all_digits].
  rewrite !is_digit_char by assumption. reflexivity.
Qed.

Lemma decimal_value_four_digits (q : Z) :
  0 <= q < 10000 -> decimal_value (four_digits q) = q.
Proof.
  intros Hq. unfold decimal_value, four_digits.
  assert (H3 : 0 <= q / 1000 < 10)
    by (split; [apply Z.div_pos; lia | apply Z.div_lt_upper_bound; lia]).
  assert (H2 : 0 <= q / 100 mod 10 < 10) by (apply Z.mod_pos_bound; lia).
  assert (H1 : 0 <= q / 10 mod 10 < 10) by (apply Z.mod_pos_bound; lia).
  assert (H0 : 0 <= q mod 10 < 10) by (apply Z.mod_pos_bound; lia).
  rewrite !digit_values_digit_char by assumption.
  cbn [digit_values fold_left].
  clear H3 H2 H1 H0.
  Z.to_euclidean_division_equations. lia.
Qed.

Lemma seq_sex_block_value (d : datetime) (n : Z) (is_male : bool) :
  decimal_value (seq_sex_block (pesel_text d n is_male)) = encoded_seq n is_male.
Proof.
  rewrite pesel_text_seq_sex_block. apply decimal_value_four_digits.
  pose proof (encoded_seq_range n is_male). lia.
Qed.

(* ================================================================= *)
(** ** The calendar *)

Lemma days_before_year_succ (y : Z) :
  Datetime.days_before_year (y + 1) = Datetime.days_before_year y + year_length y.
Proof.
  unfold Datetime.days_before_year, year_length, Datetime.is_leap.
  replace (y + 1 - 1) with y by lia.
  destruct (Z.eqb_spec (y mod 4) 0), (Z.eqb_spec (y mod 100) 0),
    (Z.eqb_spec (y mod 400) 0); cbn [andb orb negb];
    Z.to_euclidean_division_equations; lia.
Qed.

Lemma days_before_year_mono (y1 y2 : Z) :
  y1 <= y2 -> Datetime.days_before_year y1 <= Datetime.days_before_year y2.
Proof.
  intros Hy. unfold Datetime.days_before_year.
  Z.to_euclidean_division_equations. lia.
Qed.

Lemma days_before_month_succ (y m : Z) :
  1 <= m < 12 ->
  Datetime.days_before_month y (m + 1)
  = Datetime.days_before_month y m + Datetime.days_in_month y m.
Proof.
  intros Hm. unfold Datetime.days_before_month, Datetime.days_in_month.
  destruct (Datetime.is_leap y); month_cases m; try lia; reflexivity.
Qed.

Lemma days_before_month_first (y : Z) : Datetime.days_before_month y 1 = 0.
Proof.
  reflexivity.
Qed.

Lemma days_before_month_last (y : Z) :
  Datetime.days_before_month y 12 + Datetime.days_in_month y 12 = year_length y.
Proof.
  unfold Datetime.days_before_month, Datetime.days_in_month, year_length.
  destruct (Datetime.is_leap y); reflexivity.
Qed.

Lemma days_before_month_mono (y m1 m2 : Z) :
  1 <= m1 -> m1 < m2 -> m2 <= 12 ->
  Datetime.days_before_month y m1 + Datetime.days_in_month y m1
  <= Datetime.days_before_month y m2.
Proof.
  intros H1 H12 H2. unfold Datetime.days_before_month, Datetime.days_in_month.
  destruct (Datetime.is_leap y); month_cases m1; try lia;
    month_cases m2; try lia; simpl; lia.
Qed.

Lemma days_within_year (y m : Z) :
  1 <= m <= 12 ->
  0 <= Datetime.days_before_month y m
  /\ Datetime.days_before_month y m + Datetime.days_in_month y m <= year_length y.
Proof.
  intros Hm. unfold Datetime.days_before_month, Datetime.days_in_month, year_length.
  destruct (Datetime.is_leap y); month_cases m; try lia; simpl; lia.
Qed.

Lemma toordinal_next_day (d : datetime) :
  valid_date d -> Datetime.toordinal (next_day d) = Datetime.toordinal d + 1.
Proof.
  intros (Hy & Hm & Hd). unfold next_day, Datetime.toordinal.
  destruct (Z.ltb_spec d.(day) (Datetime.days_in_month d.(year) d.(month))) as [Hlt | Hge];
    [cbn [year month day]; lia |].
  destruct (Z.ltb_spec d.(month) 12) as [Hm12 | Hm12]; cbn [year month day].
  - rewrite days_before_month_succ by lia. lia.
  - assert (Hlast : d.(month) = 12) by lia. rewrite Hlast in *.
    rewrite days_before_year_succ, days_before_month_first.
    pose proof (days_before_month_last d.(year)). lia.
Qed.

Lemma valid_next_day (d : datetime) :
  valid_date d -> d.(year) < 9999 -> valid_date (next_day d).
Proof.
  intros (Hy & Hm & Hd) Hmax. unfold next_day, valid_date.
  destruct (Z.ltb_spec d.(day) (Datetime.days_in_month d.(year) d.(month))) as [Hlt | Hge];
    [cbn [year month day]; lia |].
  destruct (Z.ltb_spec d.(month) 12) as [Hm12 | Hm12]; cbn [year month day].
  - pose proof (days_in_month_range d.(year) (d.(month) + 1) ltac:(lia)). lia.
  - pose proof (days_in_month_range (d.(year) + 1) 1 ltac:(lia)). lia.
Qed.

Lemma add_one_day_next_day (d : datetime) :
  valid_date d -> d.(year) < 9999 -> Datetime.add_one_day d = Ok (next_day d).
Proof.
  intros Hd Hmax. unfold Datetime.add_one_day, next_day, Datetime.MAXYEAR.
  destruct (d.(day) <? Datetime.days_in_month d.(year) d.(month)); [reflexivity |].
  destruct (d.(month) <? 12); [reflexivity |].
  destruct (Z.ltb_spec d.(year) 9999); [reflexivity | lia].
Qed.

Lemma toordinal_lt (d1 d2 : datetime) :
  valid_date d1 -> valid_date d2 ->
  Datetime.lt d1 d2 = true -> Datetime.toordinal d1 < Datetime.toordinal d2.
Proof.
  intros (Hy1 & Hm1 & Hd1) (Hy2 & Hm2 & Hd2) Hlt.
  unfold Datetime.lt in Hlt. unfold Datetime.toordinal.
  pose proof (days_within_year d1.(year) d1.(month) Hm1) as [_ Hin1].
  pose proof (days_within_year d2.(year) d2.(month) Hm2) as [Hin2 _].
  apply orb_true_iff in Hlt. destruct Hlt as [Hlt | Hlt].
  - apply Z.ltb_lt in Hlt.
    pose proof (days_before_year_mono (d1.(year) + 1) d2.(year) ltac:(lia)) as Hmono.
    rewrite days_before_year_succ in Hmono. lia.
  - apply andb_true_iff in Hlt. destruct Hlt as [Hyear Hlt].
    apply Z.eqb_eq in Hyear. rewrite Hyear in *.
    apply orb_true_iff in Hlt. destruct Hlt as [Hlt | Hlt].
    + apply Z.ltb_lt in Hlt.
      pose proof (days_before_month_mono d2.(year) d1.(month) d2.(month)
                    ltac:(lia) Hlt ltac:(lia)). lia.
    + apply andb_true_iff in Hlt. destruct Hlt as [Hmonth Hlt].
      apply Z.eqb_eq in Hmonth. apply Z.ltb_lt in Hlt. rewrite Hmonth. lia.
Qed.

Lemma le_cases (d1 d2 : datetime) :
  Datetime.le d1 d2 = true -> Datetime.lt d1 d2 = true \/ d1 = d2.
Proof.
  destruct d1 as [y1 m1 a1], d2 as [y2 m2 a2].
  unfold Datetime.le, Datetime.lt. cbn [year month day]. intros Hle.
  compare_fields; try discriminate; try (left; reflexivity); try lia.
  right. f_equal; lia.
Qed.

Lemma le_false_lt (d1 d2 : datetime) :
  Datetime.le d1 d2 = false -> Datetime.lt d2 d1 = true.
Proof.
  destruct d1 as [y1 m1 a1], d2 as [y2 m2 a2].
  unfold Datetime.le, Datetime.lt. cbn [year month day]. intros Hle.
  compare_fields; try discriminate; try reflexivity; lia.
Qed.

Lemma le_year (d1 d2 : datetime) :
  Datetime.le d1 d2 = true -> d1.(year) <= d2.(year).
Proof.
  unfold Datetime.le. intros Hle. compare_fields; try discriminate; lia.
Qed.

Lemma le_toordinal (d1 d2 : datetime) :
  valid_date d1 -> valid_date d2 ->
  Datetime.le d1 d2 = (Datetime.toordinal d1 <=? Datetime.toordinal d2).
Proof.
  intros H1 H2. destruct (Datetime.le d1 d2) eqn:Hle; symmetry.
  - apply Z.leb_le. destruct (le_cases d1 d2 Hle) as [Hlt | ->]; [| lia].
    pose proof (toordinal_lt d1 d2 H1 H2 Hlt). lia.
  - apply Z.leb_gt. apply toordinal_lt; [assumption .. | apply le_false_lt, Hle].
Qed.

Lemma lt_toordinal (d1 d2 : datetime) :
  valid_date d1 -> valid_date d2 ->
  Datetime.lt d1 d2 = (Datetime.toordinal d1 <? Datetime.toordinal d2).
Proof.
  intros H1 H2. destruct (Datetime.lt d1 d2) eqn:Hlt; symmetry.
  - apply Z.ltb_lt, toordinal_lt; assumption.
  - apply Z.ltb_ge.
    destruct (Datetime.le d2 d1) eqn:Hle.
    + rewrite (le_toordinal d2 d1 H2 H1) in Hle. apply Z.leb_le, Hle.
    + apply le_false_lt in Hle. congruence.
Qed.

Lemma toordinal_inj (d1 d2 : datetime) :
  valid_date d1 -> valid_date d2 ->
  Datetime.toordinal d1 = Datetime.toordinal d2 -> d1 = d2.
Proof.
  intros H1 H2 Heq.
  assert (Hle : Datetime.le d1 d2 = true)
    by (rewrite le_toordinal by assumption; apply Z.leb_le; lia).
  destruct (le_cases d1 d2 Hle) as [Hlt | Hsame]; [| exact Hsame].
  pose proof (toordinal_lt d1 d2 H1 H2 Hlt). lia.
Qed.

(* ================================================================= *)
(** ** The inner loop: the identifiers of one day *)

Lemma even_mod_2 (n : Z) : (n mod 2 =? 0) = negb (Z.odd n).
Proof.
  rewrite <- Zeven_mod, Z.negb_odd. reflexivity.
Qed.

Lemma for_seq_num_text (d : datetime) (is_male : option bool) (n : Z)
      (acc : list string) :
  valid_date d ->
  for_seq_num d is_male n acc
  = Ok (acc ++ (if selected is_male n
                then [pesel_text d n (sex_of is_male n)] else [])).
Proof.
  intros Hd. unfold for_seq_num, selected, sex_of.
  destruct is_male as [is_male |].
  - rewrite odd_mod_2, even_mod_2.
    destruct is_male, (Z.odd n); cbn [andb orb negb Bool.eqb];
      rewrite ?generate_pesel_for_date_text by assumption;
      cbn [bind]; rewrite ?app_nil_r; reflexivity.
  - rewrite odd_mod_2, generate_pesel_for_date_text by assumption. reflexivity.
Qed.

Lemma for_each_for_seq_num (d : datetime) (is_male : option bool)
      (ns : list Z) (acc : list string) :
  valid_date d ->
  for_each ns (for_seq_num d is_male) acc
  = Ok (acc ++ map (fun n => pesel_text d n (sex_of is_male n))
                   (filter (selected is_male) ns)).
Proof.
  intros Hd. revert acc.
  induction ns as [| n ns IH]; intros acc; cbn [for_each filter map].
  - rewrite app_nil_r. reflexivity.
  - rewrite for_seq_num_text by assumption. cbn [bind]. rewrite IH.
    destruct (selected is_male n); cbn [map].
    + rewrite <- app_assoc. reflexivity.
    + rewrite app_nil_r. reflexivity.
Qed.

Lemma day_loop_texts (d : datetime) (is_male : option bool) (acc : list string) :
  valid_date d ->
  for_each (range 10000) (for_seq_num d is_male) acc
  = Ok (acc ++ day_texts is_male d).
Proof.
  intros Hd. unfold day_texts. apply for_each_for_seq_num, Hd.
Qed.

(* ================================================================= *)
(** ** The outer loop: one day after another *)

Lemma while_body_step (total_days bar_width : Z) (is_male : option bool)
      (st : loop_state) :
  valid_date st.(st_current_date) -> st.(st_current_date).(year) < 9999 ->
  total_days <> 0 ->
  exists shown_progress w',
    while_body total_days bar_width is_male st
    = Ok (mkstate (next_day st.(st_current_date))
                  (st.(st_pesels) ++ day_texts is_male st.(st_current_date))
                  (st.(st_days_processed) + 1) shown_progress w').
Proof.
  intros Hd Hmax Htotal. unfold while_body.
  rewrite day_loop_texts by assumption.
  generalize (day_texts is_male st.(st_current_date)). intros texts.
  cbn [bind]. unfold truediv, floordiv.
  destruct (Z.eqb_spec total_days 0) as [| _]; [contradiction |].
  cbn [bind]. rewrite add_one_day_next_day by assumption.
  match goal with
  | |- context [negb ?b] => destruct (negb b)
  end; cbn [bind fst snd]; eexists; eexists; reflexivity.
Qed.

Lemma while_loop_finishes (end_date : datetime) (total_days bar_width : Z)
      (is_male : option bool) :
  valid_date end_date -> end_date.(year) < 9999 -> total_days <> 0 ->
  forall (k : nat) (st : loop_state) (fuel : nat),
    valid_date st.(st_current_date) ->
    Datetime.toordinal end_date - Datetime.toordinal st.(st_current_date) + 1
    = Z.of_nat k ->
    (k < fuel)%nat ->
    exists st',
      while_loop fuel end_date total_days bar_width is_male st = Ok st'
      /\ st'.(st_pesels)
         = st.(st_pesels)
             ++ flat_map (day_texts is_male) (days_from k st.(st_current_date)).
Proof.
  intros Hend Hmax Htotal. induction k as [| k IH]; intros st fuel Hcur Hk Hfuel.
  - destruct fuel as [| fuel]; [lia |]. cbn [while_loop].
    rewrite le_toordinal by assumption.
    destruct (Z.leb_spec (Datetime.toordinal st.(st_current_date))
                         (Datetime.toordinal end_date)); [lia |].
    exists st. split; [reflexivity |]. cbn. rewrite app_nil_r. reflexivity.
  - destruct fuel as [| fuel]; [lia |]. cbn [while_loop].
    destruct (Datetime.le st.(st_current_date) end_date) eqn:Hle.
    + pose proof (le_year _ _ Hle) as Hyear.
      destruct (while_body_step total_days bar_width is_male st Hcur
                  ltac:(lia) Htotal) as (shown & w' & Hbody).
      rewrite Hbody. cbn [bind].
      edestruct (IH (mkstate (next_day st.(st_current_date))
                       (st.(st_pesels) ++ day_texts is_male st.(st_current_date))
                       (st.(st_days_processed) + 1) shown w') fuel)
        as (st' & Hrun & Hpesels).
      * cbn [st_current_date]. apply valid_next_day; [assumption | lia].
      * cbn [st_current_date]. rewrite toordinal_next_day by assumption. lia.
      * lia.
      * exists st'. split; [exact Hrun |].
        rewrite Hpesels. cbn [st_pesels st_current_date days_from flat_map].
        rewrite <- app_assoc. reflexivity.
    + rewrite le_toordinal in Hle by assumption. apply Z.leb_gt in Hle. lia.
Qed.

Lemma while_loop_unfinished (end_date : datetime) (total_days bar_width : Z)
      (is_male : option bool) :
  valid_date end_date -> end_date.(year) < 9999 -> total_days <> 0 ->
  forall (fuel : nat) (k : nat) (st : loop_state),
    valid_date st.(st_current_date) ->
    Datetime.toordinal end_date - Datetime.toordinal st.(st_current_date) + 1
    = Z.of_nat k ->
    (fuel <= k)%nat ->
    while_loop fuel end_date total_days bar_width is_male st = OutOfFuel.
Proof.
  intros Hend Hmax Htotal. induction fuel as [| fuel IH]; intros k st Hcur Hk Hfuel.
  - reflexivity.
  - destruct k as [| k]; [lia |]. cbn [while_loop].
    rewrite le_toordinal by assumption.
    destruct (Z.leb_spec (Datetime.toordinal st.(st_current_date))
                         (Datetime.toordinal end_date)) as [Hle | Hgt]; [| lia].
    assert (Hyear : st.(st_current_date).(year) <= end_date.(year)).
    { apply le_year. rewrite le_toordinal by assumption. apply Z.leb_le, Hle. }
    destruct (while_body_step total_days bar_width is_male st Hcur
                ltac:(lia) Htotal) as (shown & w' & Hbody).
    rewrite Hbody. cbn [bind].
    apply (IH k).
    + cbn [st_current_date]. apply valid_next_day; [assumption | lia].
    + cbn [st_current_date]. rewrite toordinal_next_day by assumption. lia.
    + lia.
Qed.

(* ================================================================= *)
(** ** The enumerator as a whole *)

Lemma days_in_january (y : Z) : Datetime.days_in_month y 1 = 31.
Proof. reflexivity. Qed.

Lemma days_in_december (y : Z) : Datetime.days_in_month y 12 = 31.
Proof. reflexivity. Qed.

Lemma valid_first_day (y : Z) : 1 <= y <= 9999 -> valid_date (first_day y).
Proof.
  intros Hy. unfold valid_date, first_day. cbn [year month day].
  rewrite days_in_january. lia.
Qed.

Lemma valid_last_day (y : Z) : 1 <= y <= 9999 -> valid_date (last_day y).
Proof.
  intros Hy. unfold valid_date, last_day. cbn [year month day].
  rewrite days_in_december. lia.
Qed.

Lemma new_first_day (y : Z) :
  1 <= y <= 9999 -> Datetime.new y 1 1 = Ok (first_day y).
Proof.
  intros Hy. unfold Datetime.new, Datetime.fits_int, Datetime.INT_MIN,
              Datetime.INT_MAX, Datetime.MINYEAR, Datetime.MAXYEAR.
  destruct (Z.leb_spec (-2147483648) y); [| lia].
  destruct (Z.leb_spec y 2147483647); [| lia].
  destruct (Z.leb_spec 1 y); [| lia].
  destruct (Z.leb_spec y 9999); [| lia]. reflexivity.
Qed.

Lemma new_last_day (y : Z) :
  1 <= y <= 9999 -> Datetime.new y 12 31 = Ok (last_day y).
Proof.
  intros Hy. unfold Datetime.new, Datetime.fits_int, Datetime.INT_MIN,
              Datetime.INT_MAX, Datetime.MINYEAR, Datetime.MAXYEAR.
  destruct (Z.leb_spec (-2147483648) y); [| lia].
  destruct (Z.leb_spec y 2147483647); [| lia].
  destruct (Z.leb_spec 1 y); [| lia].
  destruct (Z.leb_spec y 9999); [| lia]. reflexivity.
Qed.

Lemma first_le_last (sy ey : Z) :
  Datetime.le (first_day sy) (last_day ey) = (sy <=? ey).
Proof.
  unfold Datetime.le, first_day, last_day. cbn [year month day].
  destruct (Z.ltb_spec sy ey), (Z.eqb_spec sy ey), (Z.leb_spec sy ey);
    try lia; reflexivity.
Qed.

Lemma day_count_positive (sy ey : Z) :
  1 <= sy <= 9999 -> 1 <= ey <= 9999 -> sy <= ey ->
  1 <= Datetime.days_between (last_day ey) (first_day sy) + 1.
Proof.
  intros Hs He Hle. unfold Datetime.days_between.
  pose proof (le_toordinal (first_day sy) (last_day ey)
                (valid_first_day sy Hs) (valid_last_day ey He)) as Hord.
  rewrite first_le_last in Hord.
  destruct (Z.leb_spec sy ey); [| lia].
  symmetry in Hord. apply Z.leb_le in Hord. lia.
Qed.

Lemma day_count_empty (sy ey : Z) :
  1 <= sy <= 9999 -> 1 <= ey <= 9999 -> ey < sy -> day_count sy ey = 0%nat.
Proof.
  intros Hs He Hlt. unfold day_count, Datetime.days_between.
  pose proof (le_toordinal (first_day sy) (last_day ey)
                (valid_first_day sy Hs) (valid_last_day ey He)) as Hord.
  rewrite first_le_last in Hord.
  destruct (Z.leb_spec sy ey); [lia |].
  symmetry in Hord. apply Z.leb_gt in Hord. lia.
Qed.

Lemma run_generate_finishes (fuel : nat) (sy ey : Z) (is_male : option bool)
      (w : world) :
  1 <= sy <= 9999 -> 1 <= ey <= 9998 -> (day_count sy ey < fuel)%nat ->
  exists w',
    run_generate_pesels_for_year_range fuel sy ey is_male w
    = Ok (flat_map (day_texts is_male) (range_days sy ey), w').
Proof.
  intros Hs He Hfuel. unfold run_generate_pesels_for_year_range.
  rewrite new_first_day, new_last_day by lia. cbn [bind].
  destruct (Z.leb_spec sy ey) as [Hle | Hgt].
  - pose proof (day_count_positive sy ey Hs ltac:(lia) Hle) as Hpos.
    edestruct (while_loop_finishes (last_day ey)
                 (Datetime.days_between (last_day ey) (first_day sy) + 1) 50
                 is_male (valid_last_day ey ltac:(lia)) ltac:(cbn; lia)
                 ltac:(lia) (day_count sy ey)
                 (mkstate (first_day sy) [] 0 (-1) w) fuel)
      as (st' & Hrun & Hpesels).
    + cbn [st_current_date]. apply valid_first_day, Hs.
    + cbn [st_current_date]. unfold day_count, Datetime.days_between in *. lia.
    + exact Hfuel.
    + rewrite Hrun. cbn [bind]. rewrite Hpesels. cbn [st_pesels app].
      eexists. reflexivity.
  - rewrite (day_count_empty sy ey Hs ltac:(lia) Hgt) in Hfuel.
    unfold range_days. rewrite (day_count_empty sy ey Hs ltac:(lia) Hgt).
    destruct fuel as [| fuel]; [lia |]. cbn [while_loop st_current_date].
    rewrite first_le_last. destruct (Z.leb_spec sy ey); [lia |].
    cbn [bind st_pesels days_from flat_map]. eexists. reflexivity.
Qed.

Lemma run_generate_unfinished (fuel : nat) (sy ey : Z) (is_male : option bool)
      (w : world) :
  1 <= sy <= 9999 -> 1 <= ey <= 9998 -> (fuel <= day_count sy ey)%nat ->
  run_generate_pesels_for_year_range fuel sy ey is_male w = OutOfFuel.
Proof.
  intros Hs He Hfuel. unfold run_generate_pesels_for_year_range.
  rewrite new_first_day, new_last_day by lia. cbn [bind].
  destruct (Z.leb_spec sy ey) as [Hle | Hgt].
  - pose proof (day_count_positive sy ey Hs ltac:(lia) Hle) as Hpos.
    rewrite (while_loop_unfinished (last_day ey)
               (Datetime.days_between (last_day ey) (first_day sy) + 1) 50
               is_male (valid_last_day ey ltac:(lia)) ltac:(cbn; lia)
               ltac:(lia) fuel (day_count sy ey)).
    + reflexivity.
    + cbn [st_current_date]. apply valid_first_day, Hs.
    + cbn [st_current_date]. unfold day_count, Datetime.days_between in *. lia.
    + exact Hfuel.
  - rewrite (day_count_empty sy ey Hs ltac:(lia) Hgt) in Hfuel.
    assert (fuel = 0%nat) as -> by lia. reflexivity.
Qed.

Lemma generate_pesels_for_year_range_texts (sy ey : Z) (is_male : option bool)
      (w : world) :
  1 <= sy <= 9999 -> 1 <= ey <= 9998 ->
  exists w',
    generate_pesels_for_year_range sy ey is_male w
    = Ok (flat_map (day_texts is_male) (range_days sy ey), w').
Proof.
  intros Hs He. unfold generate_pesels_for_year_range.
  apply run_generate_finishes; [assumption .. |].
  unfold loop_budget, day_count, last_day, first_day. lia.
Qed.

(* ================================================================= *)
(** ** One day's identifiers *)

Lemma count_all :
  Z.of_nat (List.length (filter (selected None) (range 10000))) = 10000.
Proof. vm_compute. reflexivity. Qed.

Lemma count_one_sex (is_male : bool) :
  Z.of_nat (List.length (filter (selected (Some is_male)) (range 10000))) = 5000.
Proof. destruct is_male; vm_compute; reflexivity. Qed.



Lemma clamp_in_range (n : Z) : 0 <= n <= 9999 -> clamp n = n.
Proof.
  intros Hn. unfold clamp.
  destruct (Z.ltb_spec n 0); [lia |].
  destruct (Z.ltb_spec 9999 n); lia.
Qed.

Lemma encoded_seq_own_parity (n : Z) :
  0 <= n <= 9999 -> encoded_seq n (Z.odd n) = n.
Proof.
  intros Hn. unfold encoded_seq, adjust. rewrite (clamp_in_range n Hn).
  rewrite Bool.eqb_reflx. reflexivity.
Qed.

Lemma sex_of_selected (is_male : option bool) (n : Z) :
  selected is_male n = true -> sex_of is_male n = Z.odd n.
Proof.
  destruct is_male as [is_male |]; cbn [selected sex_of]; [| reflexivity].
  intros Hsel. apply Bool.eqb_prop in Hsel. congruence.
Qed.


Lemma day_texts_length (is_male : option bool) (d : datetime) :
  Z.of_nat (List.length (day_texts is_male d))
  = match is_male with Some _ => 5000 | None => 10000 end.
Proof.
  unfold day_texts. rewrite length_map.
  destruct is_male; [apply count_one_sex | apply count_all].
Qed.






(* ================================================================= *)
(** ** The days of a range *)

Lemma in_days_from (end_date : datetime) :
  valid_date end_date -> end_date.(year) < 9999 ->
  forall (k : nat) (c d : datetime),
    valid_date c ->
    Datetime.toordinal end_date - Datetime.toordinal c + 1 = Z.of_nat k ->
    (In d (days_from k c)
     <-> valid_date d
         /\ Datetime.toordinal c <= Datetime.toordinal d
            <= Datetime.toordinal end_date).
Proof.
  intros Hend Hmax. induction k as [| k IH]; intros c d Hc Hk; cbn [days_from In].
  - split; [contradiction | lia].
  - assert (Hyear : c.(year) <= end_date.(year)).
    { apply le_year. rewrite le_toordinal by assumption. apply Z.leb_le. lia. }
    rewrite (IH (next_day c) d);
      [| apply valid_next_day; [assumption | lia]
       | rewrite toordinal_next_day by assumption; lia].
    rewrite toordinal_next_day by assumption. split.
    + intros [<- | (Hd & Hord)]; [split; [assumption | lia] | split; [assumption | lia]].
    + intros (Hd & Hord).
      destruct (Z.eq_dec (Datetime.toordinal c) (Datetime.toordinal d)) as [Heq | Hne].
      * left. apply toordinal_inj; assumption.
      * right. split; [assumption | lia].
Qed.

Lemma days_from_sorted (end_date : datetime) :
  valid_date end_date -> end_date.(year) < 9999 ->
  forall (k : nat) (c : datetime),
    valid_date c ->
    Datetime.toordinal end_date - Datetime.toordinal c + 1 = Z.of_nat k ->
    StronglySorted (fun d1 d2 => Datetime.lt d1 d2 = true) (days_from k c).
Proof.
  intros Hend Hmax. induction k as [| k IH]; intros c Hc Hk; cbn [days_from].
  - constructor.
  - assert (Hyear : c.(year) <= end_date.(year)).
    { apply le_year. rewrite le_toordinal by assumption. apply Z.leb_le. lia. }
    assert (Hnext : valid_date (next_day c))
      by (apply valid_next_day; [assumption | lia]).
    assert (Hk' : Datetime.toordinal end_date - Datetime.toordinal (next_day c) + 1
                  = Z.of_nat k)
      by (rewrite toordinal_next_day by assumption; lia).
    constructor; [apply IH; assumption |].
    apply Forall_forall. intros d Hin.
    apply (in_days_from end_date Hend Hmax k (next_day c) d Hnext Hk') in Hin.
    destruct Hin as (Hd & Hord).
    rewrite toordinal_next_day in Hord by assumption.
    rewrite lt_toordinal by assumption. apply Z.ltb_lt. lia.
Qed.

Lemma range_days_ordinals (sy ey : Z) :
  1 <= sy <= 9999 -> 1 <= ey <= 9998 -> sy <= ey ->
  Datetime.toordinal (last_day ey) - Datetime.toordinal (first_day sy) + 1
  = Z.of_nat (day_count sy ey).
Proof.
  intros Hs He Hle.
  pose proof (day_count_positive sy ey Hs ltac:(lia) Hle) as Hpos.
  unfold day_count, Datetime.days_between in *. lia.
Qed.

Lemma in_range_days (sy ey : Z) (d : datetime) :
  1 <= sy <= 9999 -> 1 <= ey <= 9998 ->
  (In d (range_days sy ey)
   <-> valid_date d /\ Datetime.le (first_day sy) d = true
       /\ Datetime.le d (last_day ey) = true).
Proof.
  intros Hs He.
  pose proof (valid_first_day sy Hs) as Hfirst.
  pose proof (valid_last_day ey ltac:(lia)) as Hlast.
  unfold range_days. destruct (Z.leb_spec sy ey) as [Hle | Hgt].
  - rewrite (in_days_from (last_day ey) Hlast ltac:(cbn; lia) _ _ d Hfirst
               (range_days_ordinals sy ey Hs He Hle)).
    split; intros (Hd & Hord); (split; [exact Hd |]).
    + rewrite !le_toordinal by assumption. split; apply Z.leb_le; lia.
    + rewrite !le_toordinal in Hord by assumption.
      destruct Hord as [H1 H2]. apply Z.leb_le in H1, H2. lia.
  - rewrite (day_count_empty sy ey Hs ltac:(lia) Hgt). cbn [days_from In].
    split; [contradiction |]. intros (Hd & H1 & H2).
    apply le_year in H1, H2. cbn [first_day last_day year] in *. lia.
Qed.

Lemma range_days_sorted (sy ey : Z) :
  1 <= sy <= 9999 -> 1 <= ey <= 9998 ->
  StronglySorted (fun d1 d2 => Datetime.lt d1 d2 = true) (range_days sy ey).
Proof.
  intros Hs He. unfold range_days. destruct (Z.leb_spec sy ey) as [Hle | Hgt].
  - apply (days_from_sorted (last_day ey)
             (valid_last_day ey ltac:(lia)) ltac:(cbn; lia) _ _
             (valid_first_day sy Hs) (range_days_ordinals sy ey Hs He Hle)).
  - rewrite (day_count_empty sy ey Hs ltac:(lia) Hgt). constructor.
Qed.

Lemma range_days_valid (sy ey : Z) :
  1 <= sy <= 9999 -> 1 <= ey <= 9998 -> Forall valid_date (range_days sy ey).
Proof.
  intros Hs He. apply Forall_forall. intros d Hin.
  apply (in_range_days sy ey d Hs He) in Hin. apply Hin.
Qed.

(** Consecutive days of the range are one calendar day apart. *)
Lemma days_from_consecutive (k : nat) (c : datetime) (i : nat) (d1 d2 : datetime) :
  nth_error (days_from k c) i = Some d1 ->
  nth_error (days_from k c) (S i) = Some d2 ->
  d2 = next_day d1.
Proof.
  revert c i. induction k as [| k IH]; intros c i H1 H2.
  - destruct i; discriminate.
  - destruct i as [| i]; cbn [days_from nth_error] in H1, H2.
    + injection H1 as <-. destruct k; cbn [days_from nth_error] in H2;
        [discriminate | congruence].
    + apply (IH (next_day c) i); assumption.
Qed.

(* ================================================================= *)
(** ** The order of emission *)

Lemma StronglySorted_app {A : Type} (R : A -> A -> Prop) (l1 l2 : list A) :
  StronglySorted R l1 -> StronglySorted R l2 ->
  (forall x y, In x l1 -> In y l2 -> R x y) ->
  StronglySorted R (l1 ++ l2).
Proof.
  intros H1 H2 Hcross. induction H1 as [| a l1 Hsorted IH Hall]; cbn [app].
  - exact H2.
  - constructor.
    + apply IH. intros x y Hx Hy. apply Hcross; [right; exact Hx | exact Hy].
    + apply Forall_app. split; [exact Hall |].
      apply Forall_forall. intros y Hy. apply Hcross; [left; reflexivity | exact Hy].
Qed.

Lemma StronglySorted_filter {A : Type} (R : A -> A -> Prop) (keep : A -> bool)
      (l : list A) :
  StronglySorted R l -> StronglySorted R (filter keep l).
Proof.
  induction 1 as [| a l Hsorted IH Hall]; cbn [filter]; [constructor |].
  destruct (keep a); [| exact IH].
  constructor; [exact IH |].
  apply Forall_forall. intros x Hx. apply filter_In in Hx.
  rewrite Forall_forall in Hall. apply Hall, Hx.
Qed.

Lemma count_up_sorted (count : nat) (start : Z) :
  StronglySorted Z.lt (count_up count start).
Proof.
  revert start. induction count as [| count IH]; intros start; cbn [count_up];
    constructor; [apply IH |].
  apply Forall_forall. intros k Hk. apply in_count_up in Hk. lia.
Qed.

Lemma day_pairs_sorted (is_male : option bool) (d : datetime) :
  StronglySorted emitted_before (day_pairs is_male d).
Proof.
  unfold day_pairs.
  pose proof (StronglySorted_filter Z.lt (selected is_male) (range 10000)
                (count_up_sorted _ _)) as Hsorted.
  induction Hsorted as [| n ns Hs IH Hall]; cbn [map]; constructor; [exact IH |].
  apply Forall_map. revert Hall. apply Forall_impl. intros m Hlt.
  right. split; [reflexivity | exact Hlt].
Qed.

Lemma in_day_pairs (is_male : option bool) (d : datetime) (e : datetime * Z) :
  In e (day_pairs is_male d)
  <-> fst e = d /\ 0 <= snd e <= 9999 /\ selected is_male (snd e) = true.
Proof.
  unfold day_pairs. rewrite in_map_iff. split.
  - intros (n & <- & Hin). apply filter_In in Hin. destruct Hin as [Hin Hsel].
    apply in_range in Hin. cbn [fst snd]. repeat split; [lia | lia | exact Hsel].
  - intros (Hd & Hn & Hsel). exists (snd e). split.
    + destruct e as [d' n]. cbn [fst snd] in *. congruence.
    + apply filter_In. split; [apply in_range; lia | exact Hsel].
Qed.

Lemma flat_day_pairs_sorted (is_male : option bool) (days : list datetime) :
  StronglySorted (fun d1 d2 => Datetime.lt d1 d2 = true) days ->
  StronglySorted emitted_before (flat_map (day_pairs is_male) days).
Proof.
  induction 1 as [| d days Hsorted IH Hall]; cbn [flat_map]; [constructor |].
  apply StronglySorted_app; [apply day_pairs_sorted | exact IH |].
  intros x y Hx Hy. apply in_day_pairs in Hx. destruct Hx as (Hx & _).
  apply in_flat_map in Hy. destruct Hy as (d' & Hd' & Hy).
  apply in_day_pairs in Hy. destruct Hy as (Hy & _).
  left. rewrite Hx, Hy. rewrite Forall_forall in Hall. apply Hall, Hd'.
Qed.

Lemma flat_day_texts_sources (is_male : option bool) (days : list datetime) :
  Forall valid_date days ->
  Forall2 (fun e pesel =>
             generate_pesel_for_date (fst e) (snd e) (sex_of is_male (snd e))
             = Ok pesel)
          (flat_map (day_pairs is_male) days)
          (flat_map (day_texts is_male) days).
Proof.
  induction 1 as [| d days Hd Hvalid IH]; cbn [flat_map]; [constructor |].
  apply Forall2_app; [| exact IH].
  unfold day_pairs, day_texts.
  induction (filter (selected is_male) (range 10000)) as [| n ns IHn];
    cbn [map]; constructor; [| exact IHn].
  cbn [fst snd]. apply generate_pesel_for_date_text, Hd.
Qed.

Lemma in_emitted_pairs (is_male : option bool) (sy ey : Z) (d : datetime) (n : Z) :
  1 <= sy <= 9999 -> 1 <= ey <= 9998 ->
  (In (d, n) (emitted_pairs is_male sy ey)
   <-> valid_date d
       /\ Datetime.le (first_day sy) d = true
       /\ Datetime.le d (last_day ey) = true
       /\ 0 <= n <= 9999 /\ selected is_male n = true).
Proof.
  intros Hs He. unfold emitted_pairs. rewrite in_flat_map. split.
  - intros (d' & Hd' & Hin). apply in_day_pairs in Hin.
    cbn [fst snd] in Hin. destruct Hin as (<- & Hn & Hsel).
    apply (in_range_days sy ey d Hs He) in Hd'. tauto.
  - intros (Hd & H1 & H2 & Hn & Hsel). exists d. split.
    + apply (in_range_days sy ey d Hs He). tauto.
    + apply in_day_pairs. cbn [fst snd]. tauto.
Qed.

(* ================================================================= *)
(** ** Sizes *)

Lemma days_from_length (k : nat) (c : datetime) : List.length (days_from k c) = k.
Proof.
  revert c. induction k as [| k IH]; intros c; cbn [days_from List.length];
    [reflexivity | rewrite IH; reflexivity].
Qed.

Lemma flat_day_texts_length (is_male : option bool) (days : list datetime) :
  Z.of_nat (List.length (flat_map (day_texts is_male) days))
  = per_day is_male * Z.of_nat (List.length days).
Proof.
  induction days as [| d days IH]; cbn [flat_map List.length]; [lia |].
  rewrite length_app, Nat2Z.inj_add, IH, day_texts_length.
  unfold per_day. destruct is_male; lia.
Qed.

(* ================================================================= *)
(** ** Filtered and unfiltered runs *)

Lemma keep_positions_app {A : Type} (keep : nat -> bool) (i : nat) (l1 l2 : list A) :
  keep_positions keep i (l1 ++ l2)
  = keep_positions keep i l1 ++ keep_positions keep (i + List.length l1) l2.
Proof.
  revert i. induction l1 as [| x l1 IH]; intros i; cbn [app keep_positions List.length].
  - rewrite Nat.add_0_r. reflexivity.
  - rewrite IH, Nat.add_succ_r. cbn [Nat.add].
    destruct (keep i); reflexivity.
Qed.

Lemma keep_positions_count_up {B : Type} (keep : nat -> bool) (sel : Z -> bool)
      (g : Z -> B) (count : nat) :
  forall (i : nat) (start : Z),
    (forall j : nat, (j < count)%nat -> keep (i + j)%nat = sel (start + Z.of_nat j)) ->
    keep_positions keep i (map g (count_up count start))
    = map g (filter sel (count_up count start)).
Proof.
  induction count as [| count IH]; intros i start Hkeep;
    cbn [count_up map keep_positions filter]; [reflexivity |].
  pose proof (Hkeep 0%nat ltac:(lia)) as Hhead.
  rewrite Nat.add_0_r, Z.add_0_r in Hhead. rewrite Hhead.
  rewrite (IH (S i) (start + 1)).
  - destruct (sel start); reflexivity.
  - intros j Hj. specialize (Hkeep (S j) ltac:(lia)).
    rewrite Nat.add_succ_r in Hkeep. cbn [Nat.add]. rewrite Hkeep.
    f_equal. lia.
Qed.

Lemma filter_selected_None (ns : list Z) : filter (selected None) ns = ns.
Proof.
  induction ns as [| n ns IH]; cbn [filter selected]; [| rewrite IH]; reflexivity.
Qed.

Lemma keep_positions_day (is_male : bool) (d : datetime) (i : nat) :
  Z.of_nat i mod 10000 = 0 ->
  keep_positions (fun j => selected (Some is_male) (Z.of_nat j mod 10000)) i
                 (day_texts None d)
  = day_texts (Some is_male) d.
Proof.
  intros Hi. unfold day_texts at 1. rewrite filter_selected_None. unfold range.
  rewrite (keep_positions_count_up _ (selected (Some is_male))).
  - unfold day_texts, range. apply map_ext_in. intros n Hin.
    apply filter_In in Hin. destruct Hin as [_ Hsel].
    rewrite (sex_of_selected _ _ Hsel). reflexivity.
  - intros j Hj. f_equal. rewrite Nat2Z.inj_add.
    assert (Hbound : 0 <= Z.of_nat j < 10000) by lia.
    clear Hj. Z.to_euclidean_division_equations. lia.
Qed.

Lemma keep_positions_days (is_male : bool) (days : list datetime) :
  forall i : nat,
    Z.of_nat i mod 10000 = 0 ->
    keep_positions (fun j => selected (Some is_male) (Z.of_nat j mod 10000)) i
                   (flat_map (day_texts None) days)
    = flat_map (day_texts (Some is_male)) days.
Proof.
  induction days as [| d days IH]; intros i Hi; cbn [flat_map]; [reflexivity |].
  rewrite keep_positions_app, keep_positions_day by exact Hi.
  rewrite IH; [reflexivity |].
  rewrite Nat2Z.inj_add, (day_texts_length None d).
  Z.to_euclidean_division_equations. lia.
Qed.

(* ================================================================= *)
(** ** The console does not feed back into the loop *)

Lemma same_outcome_bind {A B : Type} (RA : A -> A -> Prop) (RB : B -> B -> Prop)
      (r1 r2 : result A) (k1 k2 : A -> result B) :
  same_outcome RA r1 r2 ->
  (forall a1 a2, RA a1 a2 -> same_outcome RB (k1 a1) (k2 a2)) ->
  same_outcome RB (bind r1 k1) (bind r2 k2).
Proof.
  intros Hr Hk. destruct r1, r2; cbn in *; try contradiction; auto.
Qed.

Lemma same_outcome_eq {A : Type} (r : result A) : same_outcome eq r r.
Proof.
  destruct r; cbn; auto.
Qed.

Lemma while_body_same (total_days bar_width : Z) (is_male : option bool)
      (st1 st2 : loop_state) :
  same_variables st1 st2 ->
  same_outcome same_variables
    (while_body total_days bar_width is_male st1)
    (while_body total_days bar_width is_male st2).
Proof.
  destruct st1 as [date1 pesels1 processed1 last1 w1].
  destruct st2 as [date2 pesels2 processed2 last2 w2].
  unfold same_variables. cbn [st_current_date st_pesels st_days_processed
                              st_last_progress].
  intros (<- & <- & <- & <-). unfold while_body.
  cbn [st_current_date st_pesels st_days_processed st_last_progress st_world].
  apply (same_outcome_bind eq); [apply same_outcome_eq |].
  intros pesels ? <-.
  apply (same_outcome_bind eq); [apply same_outcome_eq |].
  intros ratio ? <-.
  apply (same_outcome_bind (fun shown1 shown2 => snd shown1 = snd shown2)).
  - destruct (negb _); [| reflexivity].
    apply (same_outcome_bind eq); [apply same_outcome_eq |].
    intros filled ? <-. reflexivity.
  - intros shown1 shown2 Hshown.
    apply (same_outcome_bind eq); [apply same_outcome_eq |].
    intros next ? <-. cbn. auto.
Qed.

Lemma while_loop_same (end_date : datetime) (total_days bar_width : Z)
      (is_male : option bool) (fuel : nat) :
  forall st1 st2 : loop_state,
    same_variables st1 st2 ->
    same_outcome same_variables
      (while_loop fuel end_date total_days bar_width is_male st1)
      (while_loop fuel end_date total_days bar_width is_male st2).
Proof.
  induction fuel as [| fuel IH]; intros st1 st2 Hsame; cbn [while_loop].
  - exact I.
  - destruct Hsame as (Hdate & Hrest) eqn:Hkeep. clear Hkeep.
    rewrite <- Hdate.
    destruct (Datetime.le st1.(st_current_date) end_date).
    + apply (same_outcome_bind same_variables).
      * apply while_body_same. split; assumption.
      * exact IH.
    + cbn. split; assumption.
Qed.

Lemma run_generate_same (fuel : nat) (sy ey : Z) (is_male : option bool)
      (w1 w2 : world) :
  same_outcome (fun out1 out2 => fst out1 = fst out2)
    (run_generate_pesels_for_year_range fuel sy ey is_male w1)
    (run_generate_pesels_for_year_range fuel sy ey is_male w2).
Proof.
  unfold run_generate_pesels_for_year_range.
  apply (same_outcome_bind eq); [apply same_outcome_eq |].
  intros current_date ? <-.
  apply (same_outcome_bind eq); [apply same_outcome_eq |].
  intros end_date ? <-.
  apply (same_outcome_bind same_variables).
  - apply while_loop_same. unfold same_variables. cbn. auto.
  - intros st1 st2 (_ & Hpesels & _). cbn. exact Hpesels.
Qed.

Lemma same_outcome_fmap {A B : Type} (f : A -> B) (r1 r2 : result A) :
  same_outcome (fun a1 a2 => f a1 = f a2) r1 r2 -> fmap f r1 = fmap f r2.
Proof.
  destruct r1, r2; cbn; intros H; try contradiction; congruence.
Qed.

Lemma keep_positions_ext {A : Type} (keep1 keep2 : nat -> bool) (l : list A) :
  (forall i, keep1 i = keep2 i) ->
  forall i, keep_positions keep1 i l = keep_positions keep2 i l.
Proof.
  intros Hext. induction l as [| x l IH]; intros i; cbn [keep_positions];
    [reflexivity |].
  rewrite Hext, !IH. reflexivity.
Qed.


(** A run hands over nothing or everything. *)
Lemma run_generate_all_or_nothing (fuel : nat) (sy ey : Z)
      (is_male : option bool) (w : world) :
  1 <= sy <= 9999 -> 1 <= ey <= 9998 ->
  available (run_generate_pesels_for_year_range fuel sy ey is_male w) = []
  \/ available (run_generate_pesels_for_year_range fuel sy ey is_male w)
     = available (generate_pesels_for_year_range sy ey is_male w).
Proof.
  intros Hs He. destruct (Nat.le_gt_cases fuel (day_count sy ey)) as [Hshort | Hlong].
  - left. rewrite run_generate_unfinished by assumption. reflexivity.
  - right.
    destruct (run_generate_finishes fuel sy ey is_male w Hs He Hlong) as (w1 & ->).
    destruct (generate_pesels_for_year_range_texts sy ey is_male w Hs He) as (w2 & ->).
    reflexivity.
Qed.

(* ================================================================= *)
(** ** The block of one day *)






(* ================================================================= *)
(** ** More on the Encoder *)

Lemma calculate_check_digit_cases (s : string) :
  calculate_check_digit s
  = if negb (all_digits (substring 0 10 s)) then Raise ValueError
    else if (String.length s <? 10)%nat then Raise IndexError
    else Ok (checksum_formula (digit_values (substring 0 10 s))).
Proof.
  unfold calculate_check_digit.
  change (range 10) with [0; 1; 2; 3; 4; 5; 6; 7; 8; 9].
  do 10 (destruct s as [| ?c s]; [check_digit_by_cases |]).
  destruct s; check_digit_by_cases; do 4 f_equal; lia.
Qed.

Lemma is_digit_value (c : ascii) :
  is_digit c = true -> 0 <= Z.of_N (N_of_ascii c) - 48 <= 9.
Proof.
  unfold is_digit. intros H. apply andb_true_iff in H.
  destruct H as [Hlow Hhigh]. apply Z.leb_le in Hlow, Hhigh. lia.
Qed.

Lemma digit_value_inj (c c' : ascii) :
  Z.of_N (N_of_ascii c) - 48 = Z.of_N (N_of_ascii c') - 48 -> c = c'.
Proof.
  intros H. assert (Hcode : N_of_ascii c = N_of_ascii c') by lia.
  rewrite <- (ascii_N_embedding c), <- (ascii_N_embedding c'), Hcode.
  reflexivity.
Qed.

(** A string [calculate_check_digit] accepts starts with ten digits. *)
Lemma calculate_check_digit_ok_inv (s : string) (c : Z) :
  calculate_check_digit s = Ok c ->
  exists (c0 c1 c2 c3 c4 c5 c6 c7 c8 c9 : ascii) (rest : string),
    s = String c0 (String c1 (String c2 (String c3 (String c4
          (String c5 (String c6 (String c7 (String c8 (String c9 rest)))))))))
    /\ Forall (fun a => is_digit a = true) [c0; c1; c2; c3; c4; c5; c6; c7; c8; c9]
    /\ c = checksum_formula
             (map (fun a => Z.of_N (N_of_ascii a) - 48)
                  [c0; c1; c2; c3; c4; c5; c6; c7; c8; c9]).
Proof.
  rewrite calculate_check_digit_cases. intros H.
  do 10 (destruct s as [| ?c s];
         [exfalso; revert H;
          cbv - [is_digit N_of_ascii Z.of_N Z.add Z.mul Z.sub Z.modulo];
          decide_digits; discriminate |]).
  exists c0, c1, c2, c3, c4, c5, c6, c7, c8, c9, s.
  split; [reflexivity |].
  assert (Hprefix : substring 0 10
            (String c0 (String c1 (String c2 (String c3 (String c4
               (String c5 (String c6 (String c7 (String c8 (String c9 s))))))))))
          = String c0 (String c1 (String c2 (String c3 (String c4
               (String c5 (String c6 (String c7 (String c8 (String c9 EmptyString))))))))))
    by (destruct s; reflexivity).
  rewrite Hprefix in H. clear Hprefix.
  cbn [all_digits digit_values String.length Nat.ltb Nat.leb] in H.
  destruct (is_digit c0) eqn:H0; [| discriminate].
  destruct (is_digit c1) eqn:H1; [| discriminate].
  destruct (is_digit c2) eqn:H2; [| discriminate].
  destruct (is_digit c3) eqn:H3; [| discriminate].
  destruct (is_digit c4) eqn:H4; [| discriminate].
  destruct (is_digit c5) eqn:H5; [| discriminate].
  destruct (is_digit c6) eqn:H6; [| discriminate].
  destruct (is_digit c7) eqn:H7; [| discriminate].
  destruct (is_digit c8) eqn:H8; [| discriminate].
  destruct (is_digit c9) eqn:H9; [| discriminate].
  cbn [andb negb] in H. injection H as <-.
  split; [repeat constructor; assumption | reflexivity].
Qed.

Lemma pesel_text_digit_values (d : datetime) (n : Z) (is_male : bool) :
  valid_date d ->
  digit_values (pesel_text d n is_male)
  = base_digits d n is_male ++ [checksum_formula (base_digits d n is_male)].
Proof.
  intros Hd.
  pose proof (base_digits_range d n is_male Hd) as Hdigits.
  pose proof (checksum_formula_range (base_digits d n is_male)) as Hcheck.
  unfold pesel_text.
  generalize dependent (checksum_formula (base_digits d n is_male)).
  intros check Hcheck. unfold base_digits in *.
  repeat match type of Hdigits with
         | Forall _ (_ :: _) =>
             let Hhead := fresh "Hv" in
             apply Forall_cons_iff in Hdigits; destruct Hdigits as [Hhead Hdigits]
         end.
  unfold two_digits, four_digits. cbn [String.append].
  rewrite !digit_values_digit_char by assumption. reflexivity.
Qed.

Lemma decimal_value_two_digits (a : Z) :
  0 <= a < 100 -> decimal_value (two_digits a) = a.
Proof.
  intros Ha. unfold decimal_value, two_digits.
  assert (H1 : 0 <= a / 10 < 10)
    by (split; [apply Z.div_pos; lia | apply Z.div_lt_upper_bound; lia]).
  assert (H0 : 0 <= a mod 10 < 10) by (apply Z.mod_pos_bound; lia).
  rewrite !digit_values_digit_char by assumption.
  cbn [digit_values fold_left]. clear H1 H0.
  Z.to_euclidean_division_equations. lia.
Qed.

Lemma encoded_month_century (d : datetime) :
  1800 <= d.(year) <= 2299 ->
  encoded_month d = d.(month) + 20 * ((d.(year) / 100 - 19) mod 5).
Proof.
  intros Hy. unfold encoded_month, month_offset, month_offset_table, lookup_offset.
  assert (Hband : 1800 <= d.(year) <= 1899 \/ 1900 <= d.(year) <= 1999
                  \/ 2000 <= d.(year) <= 2099 \/ 2100 <= d.(year) <= 2199
                  \/ 2200 <= d.(year) <= 2299) by lia.
  destruct Hband as [H | [H | [H | [H | H]]]].
  - replace ((1800 <=? year d) && (year d <=? 1899)) with true by lia.
    Z.to_euclidean_division_equations. lia.
  - replace ((1800 <=? year d) && (year d <=? 1899)) with false by lia.
    replace ((1900 <=? year d) && (year d <=? 1999)) with true by lia.
    Z.to_euclidean_division_equations. lia.
  - replace ((1800 <=? year d) && (year d <=? 1899)) with false by lia.
    replace ((1900 <=? year d) && (year d <=? 1999)) with false by lia.
    replace ((2000 <=? year d) && (year d <=? 2099)) with true by lia.
    Z.to_euclidean_division_equations. lia.
  - replace ((1800 <=? year d) && (year d <=? 1899)) with false by lia.
    replace ((1900 <=? year d) && (year d <=? 1999)) with false by lia.
    replace ((2000 <=? year d) && (year d <=? 2099)) with false by lia.
    replace ((2100 <=? year d) && (year d <=? 2199)) with true by lia.
    Z.to_euclidean_division_equations. lia.
  - replace ((1800 <=? year d) && (year d <=? 1899)) with false by lia.
    replace ((1900 <=? year d) && (year d <=? 1999)) with false by lia.
    replace ((2000 <=? year d) && (year d <=? 2099)) with false by lia.
    replace ((2100 <=? year d) && (year d <=? 2199)) with false by lia.
    replace ((2200 <=? year d) && (year d <=? 2299)) with true by lia.
    Z.to_euclidean_division_equations. lia.
Qed.

Lemma pesel_text_inj (d d' : datetime) (n n' : Z) (is_male is_male' : bool) :
  valid_date d -> valid_date d' ->
  1800 <= d.(year) <= 2299 -> 1800 <= d'.(year) <= 2299 ->
  pesel_text d n is_male = pesel_text d' n' is_male' ->
  d = d' /\ is_male = is_male'
  /\ encoded_seq n is_male = encoded_seq n' is_male'.
Proof.
  intros (Hy & Hm & Hday) (Hy' & Hm' & Hday') Hc Hc' Heq.
  pose proof (days_in_month_range d.(year) d.(month) Hm) as Hdim.
  pose proof (days_in_month_range d'.(year) d'.(month) Hm') as Hdim'.
  pose proof (encoded_month_range d Hm) as Hem.
  pose proof (encoded_month_range d' Hm') as Hem'.
  assert (Hyy : d.(year) mod 100 = d'.(year) mod 100).
  { apply (f_equal (fun p => decimal_value (substring 0 2 p))) in Heq.
    change (decimal_value (two_digits (d.(year) mod 100))
            = decimal_value (two_digits (d'.(year) mod 100))) in Heq.
    rewrite !decimal_value_two_digits in Heq
      by (apply Z.mod_pos_bound; lia).
    exact Heq. }
  assert (Hmm : encoded_month d = encoded_month d').
  { apply (f_equal (fun p => decimal_value (month_field p))) in Heq.
    rewrite !pesel_text_month_field, !decimal_value_two_digits in Heq by lia.
    exact Heq. }
  assert (Hdd : d.(day) = d'.(day)).
  { apply (f_equal (fun p => decimal_value (substring 4 2 p))) in Heq.
    change (decimal_value (two_digits d.(day))
            = decimal_value (two_digits d'.(day))) in Heq.
    rewrite !decimal_value_two_digits in Heq by lia.
    exact Heq. }
  assert (Hseq : encoded_seq n is_male = encoded_seq n' is_male').
  { apply (f_equal (fun p => decimal_value (seq_sex_block p))) in Heq.
    rewrite !seq_sex_block_value in Heq. exact Heq. }
  rewrite !encoded_month_century in Hmm by assumption.
  split; [| split; [| exact Hseq]].
  - destruct d as [y m a], d' as [y' m' a']. cbn [year month day] in *.
    assert (y = y' /\ m = m')
      by (clear - Hc Hc' Hm Hm' Hyy Hmm; Z.to_euclidean_division_equations; lia).
    f_equal; lia.
  - rewrite <- (encoded_seq_parity n is_male),
            <- (encoded_seq_parity n' is_male'), Hseq.
    reflexivity.
Qed.

Lemma Ok_inj {A : Type} (a b : A) : Ok a = Ok b -> a = b.
Proof.
  intros H. injection H as H. exact H.
Qed.

(* ================================================================= *)
(** ** More on the Range Enumerator *)

(** The loop body up to its last statement, the step to the next day. *)
Lemma while_body_outcome (total_days bar_width : Z) (is_male : option bool)
      (st : loop_state) :
  valid_date st.(st_current_date) -> total_days <> 0 ->
  exists (shown_progress : Z) (chunks : list string),
    Forall progress_chunk chunks
    /\ while_body total_days bar_width is_male st
       = bind (Datetime.add_one_day st.(st_current_date))
              (fun next =>
                 Ok (mkstate next
                       (st.(st_pesels) ++ day_texts is_male st.(st_current_date))
                       (st.(st_days_processed) + 1) shown_progress
                       (mkworld_on (st.(st_world).(stdout) ++ chunks)
                                   st.(st_world).(stdin)
                                   st.(st_world).(files)
                                   st.(st_world).(disk)))).
Proof.
  intros Hd Htotal. unfold while_body.
  rewrite day_loop_texts by assumption.
  generalize (day_texts is_male st.(st_current_date)). intros texts.
  cbn [bind]. unfold truediv, floordiv.
  destruct (Z.eqb_spec total_days 0) as [| _]; [contradiction |].
  cbn [bind].
  match goal with
  | |- context [negb ?b] => destruct (negb b)
  end; cbn [bind fst snd].
  - eexists _, [_]. split; [| reflexivity].
    constructor; [| constructor]. right. eexists. reflexivity.
  - exists st.(st_last_progress), []. split; [constructor |].
    rewrite app_nil_r. destruct st as [date pesels processed last [out inp fs dk]].
    reflexivity.
Qed.

Lemma next_day_not_last (d : datetime) :
  valid_date d ->
  Datetime.toordinal d < Datetime.toordinal (last_day 9999) ->
  Datetime.add_one_day d = Ok (next_day d) /\ valid_date (next_day d).
Proof.
  intros Hd Hbefore.
  destruct (Z.ltb_spec d.(year) 9999) as [Hyear | Hyear].
  - split; [apply add_one_day_next_day | apply valid_next_day]; assumption.
  - pose proof Hd as (Hy & Hm & Hday).
    assert (Hy9 : d.(year) = 9999) by lia.
    assert (Hnotlast : d.(day) < Datetime.days_in_month d.(year) d.(month)
                       \/ d.(month) < 12).
    { destruct (Z.ltb_spec d.(month) 12) as [| Hm12]; [right; assumption |].
      left. assert (Hdec : d.(month) = 12) by lia.
      unfold Datetime.toordinal, last_day in Hbefore.
      cbn [year month day] in Hbefore. rewrite Hy9, Hdec in *.
      rewrite days_in_december. lia. }
    unfold Datetime.add_one_day, next_day, valid_date.
    destruct (Z.ltb_spec d.(day) (Datetime.days_in_month d.(year) d.(month)))
      as [Hlt | Hge].
    + split; [reflexivity |]. cbn [year month day]. lia.
    + destruct (Z.ltb_spec d.(month) 12) as [Hm12 | Hm12]; [| lia].
      split; [reflexivity |]. cbn [year month day].
      pose proof (days_in_month_range d.(year) (d.(month) + 1) ltac:(lia)). lia.
Qed.

Lemma while_loop_overflows (total_days bar_width : Z) (is_male : option bool) :
  total_days <> 0 ->
  forall (k : nat) (st : loop_state) (fuel : nat),
    valid_date st.(st_current_date) ->
    Datetime.toordinal (last_day 9999)
    - Datetime.toordinal st.(st_current_date) = Z.of_nat k ->
    (k < fuel)%nat ->
    while_loop fuel (last_day 9999) total_days bar_width is_male st
    = Raise OverflowError.
Proof.
  intros Htotal.
  pose proof (valid_last_day 9999 ltac:(lia)) as Hlast.
  induction k as [| k IH]; intros st fuel Hcur Hk Hfuel;
    (destruct fuel as [| fuel]; [lia |]); cbn [while_loop];
    rewrite le_toordinal by assumption;
    (destruct (Z.leb_spec (Datetime.toordinal st.(st_current_date))
                          (Datetime.toordinal (last_day 9999))); [| lia]);
    destruct (while_body_outcome total_days bar_width is_male st Hcur Htotal)
      as (shown & chunks & _ & ->).
  - assert (Hsame : st.(st_current_date) = last_day 9999)
      by (apply toordinal_inj; [assumption .. | lia]).
    rewrite Hsame. reflexivity.
  - destruct (next_day_not_last st.(st_current_date) Hcur ltac:(lia))
      as (-> & Hnext).
    cbn [bind]. apply IH.
    + exact Hnext.
    + cbn [st_current_date]. rewrite toordinal_next_day by assumption. lia.
    + lia.
Qed.

Lemma console_grew_trans (chunks1 chunks2 : list string) (w1 w2 w3 : world) :
  console_grew chunks1 w1 w2 -> console_grew chunks2 w2 w3 ->
  console_grew (chunks1 ++ chunks2) w1 w3.
Proof.
  intros (Hout1 & Hin1 & Hfs1 & Hdk1) (Hout2 & Hin2 & Hfs2 & Hdk2).
  unfold console_grew.
  rewrite Hout2, Hout1, Hin2, Hin1, Hfs2, Hfs1, Hdk2, Hdk1, app_assoc. auto.
Qed.

Lemma while_body_console (total_days bar_width : Z) (is_male : option bool)
      (st st' : loop_state) :
  while_body total_days bar_width is_male st = Ok st' ->
  exists chunks : list string,
    Forall progress_chunk chunks
    /\ console_grew chunks st.(st_world) st'.(st_world).
Proof.
  unfold while_body.
  generalize (for_each (range 10000) (for_seq_num st.(st_current_date) is_male)
                       st.(st_pesels)).
  intros [texts | e |]; cbn [bind]; [| discriminate ..].
  destruct (truediv (st.(st_days_processed) + 1) total_days) as [ratio | e |];
    cbn [bind]; [| discriminate ..].
  match goal with
  | |- context [negb ?b] => destruct (negb b)
  end.
  - destruct (floordiv (bar_width * (st.(st_days_processed) + 1)) total_days)
      as [filled | e |]; cbn [bind]; [| discriminate ..].
    destruct (Datetime.add_one_day st.(st_current_date)) as [next | e |];
      cbn [bind fst snd]; [| discriminate ..].
    intros H. injection H as <-. cbn [st_world].
    eexists [_].
    split; [| unfold console_grew, print_end; cbn [stdout stdin files disk];
              repeat split; reflexivity].
    constructor; [| constructor]. right. eexists. reflexivity.
  - cbn [bind fst snd].
    destruct (Datetime.add_one_day st.(st_current_date)) as [next | e |];
      cbn [bind]; [| discriminate ..].
    intros H. injection H as <-. cbn [st_world].
    exists []. split; [constructor |].
    unfold console_grew. rewrite app_nil_r. auto.
Qed.

Lemma while_loop_console (end_date : datetime) (total_days bar_width : Z)
      (is_male : option bool) (fuel : nat) :
  forall st st' : loop_state,
    while_loop fuel end_date total_days bar_width is_male st = Ok st' ->
    exists chunks : list string,
      Forall progress_chunk chunks
      /\ console_grew chunks st.(st_world) st'.(st_world).
Proof.
  induction fuel as [| fuel IH]; intros st st'; cbn [while_loop];
    [discriminate |].
  destruct (Datetime.le st.(st_current_date) end_date).
  - destruct (while_body total_days bar_width is_male st) as [st1 | e |] eqn:Hbody;
      cbn [bind]; [| discriminate ..].
    intros Hrest.
    destruct (while_body_console _ _ _ _ _ Hbody) as (chunks1 & Hall1 & Hgrew1).
    destruct (IH _ _ Hrest) as (chunks2 & Hall2 & Hgrew2).
    exists (chunks1 ++ chunks2). split.
    + apply Forall_app. split; assumption.
    + eapply console_grew_trans; eassumption.
  - intros H. injection H as <-. exists []. split; [constructor |].
    unfold console_grew. rewrite app_nil_r. auto.
Qed.

Lemma run_generate_console (fuel : nat) (sy ey : Z) (is_male : option bool)
      (w w' : world) (pesels : list string) :
  run_generate_pesels_for_year_range fuel sy ey is_male w = Ok (pesels, w') ->
  exists chunks : list string,
    Forall progress_chunk chunks /\ console_grew chunks w w'.
Proof.
  unfold run_generate_pesels_for_year_range.
  destruct (Datetime.new sy 1 1) as [current_date | e |]; cbn [bind];
    [| discriminate ..].
  destruct (Datetime.new ey 12 31) as [end_date | e |]; cbn [bind];
    [| discriminate ..].
  match goal with
  | |- context [while_loop ?f ?e ?t ?b ?m ?s] =>
      destruct (while_loop f e t b m s) as [st | e' |] eqn:Hloop
  end; cbn [bind]; [| discriminate ..].
  intros H. injection H as _ <-.
  destruct (while_loop_console _ _ _ _ _ _ _ Hloop) as (chunks & Hall & Hgrew).
  cbn [st_world] in Hgrew.
  exists (chunks ++ [nl]). split.
  - apply Forall_app. split; [exact Hall |].
    constructor; [left; reflexivity | constructor].
  - eapply console_grew_trans; [exact Hgrew |].
    unfold console_grew, print, print_end. cbn [stdout stdin files disk]. auto.
Qed.

Lemma next_day_of_last_day (y : Z) : next_day (last_day y) = first_day (y + 1).
Proof. reflexivity. Qed.

Lemma day_count_between_new_years (sy ey : Z) :
  1 <= sy <= 9999 -> 1 <= ey <= 9998 -> sy <= ey ->
  Z.of_nat (day_count sy ey)
  = Datetime.days_between (first_day (ey + 1)) (first_day sy).
Proof.
  intros Hs He Hle.
  rewrite <- (range_days_ordinals sy ey Hs He Hle).
  unfold Datetime.days_between.
  rewrite <- next_day_of_last_day,
    (toordinal_next_day (last_day ey) (valid_last_day ey ltac:(lia))).
  lia.
Qed.

Lemma days_in_one_year (y : Z) :
  Datetime.days_between (first_day (y + 1)) (first_day y)
  = if Datetime.is_leap y then 366 else 365.
Proof.
  unfold Datetime.days_between, Datetime.toordinal, first_day.
  cbn [year month day]. rewrite days_before_year_succ, !days_before_month_first.
  unfold year_length. lia.
Qed.

Lemma in_day_texts (is_male : option bool) (d : datetime) (pesel : string) :
  In pesel (day_texts is_male d) ->
  exists n,
    In n (filter (selected is_male) (range 10000))
    /\ pesel = pesel_text d n (sex_of is_male n).
Proof.
  unfold day_texts.
  generalize (filter (selected is_male) (range 10000)). intros ns Hin.
  apply in_map_iff in Hin. destruct Hin as (n & Heq & Hn).
  exists n. split; [exact Hn | symmetry; exact Heq].
Qed.

Lemma in_flat_day_texts (is_male : option bool) (days : list datetime)
      (pesel : string) :
  In pesel (flat_map (day_texts is_male) days) ->
  exists d n,
    In d days /\ In n (filter (selected is_male) (range 10000))
    /\ pesel = pesel_text d n (sex_of is_male n).
Proof.
  intros Hin. apply in_flat_map in Hin. destruct Hin as (d & Hd & Hin).
  destruct (in_day_texts is_male d pesel Hin) as (n & Hn & Heq).
  exists d, n. split; [exact Hd |]. split; [exact Hn | exact Heq].
Qed.

Lemma pesel_text_well_formed (d : datetime) (n : Z) (is_male : bool) :
  valid_date d -> well_formed (pesel_text d n is_male).
Proof.
  intros Hd. unfold well_formed.
  split; [apply pesel_text_length |].
  split; [apply pesel_text_all_digits, Hd |].
  rewrite (pesel_text_digit_values d n is_male Hd).
  unfold checksum_formula, base_digits, validation_weights.
  cbn [app weighted_sum].
  Z.to_euclidean_division_equations. lia.
Qed.

Lemma lt_irrefl (d : datetime) : Datetime.lt d d = false.
Proof.
  unfold Datetime.lt. compare_fields; try reflexivity; lia.
Qed.

Lemma StronglySorted_NoDup {A : Type} (R : A -> A -> Prop) (l : list A) :
  (forall x, ~ R x x) -> StronglySorted R l -> NoDup l.
Proof.
  intros Hirr. induction 1 as [| a l Hsorted IH Hall]; constructor; [| exact IH].
  intros Hin. rewrite Forall_forall in Hall. exact (Hirr a (Hall a Hin)).
Qed.

Lemma NoDup_map_on {A B : Type} (g : A -> B) (l : list A) :
  NoDup l ->
  (forall x y, In x l -> In y l -> g x = g y -> x = y) ->
  NoDup (map g l).
Proof.
  induction 1 as [| a l Hnotin Hnodup IH]; intros Hinj; cbn [map]; constructor.
  - intros Hin. apply in_map_iff in Hin. destruct Hin as (b & Heq & Hb).
    assert (b = a) by (apply Hinj; [right; exact Hb | left; reflexivity | exact Heq]).
    subst b. contradiction.
  - apply IH. intros x y Hx Hy. apply Hinj; right; assumption.
Qed.

Lemma flat_day_texts_as_map (is_male : option bool) (days : list datetime) :
  flat_map (day_texts is_male) days
  = map (fun e => pesel_text (fst e) (snd e) (sex_of is_male (snd e)))
        (flat_map (day_pairs is_male) days).
Proof.
  induction days as [| d days IH]; cbn [flat_map]; [reflexivity |].
  rewrite map_app, IH. f_equal.
  unfold day_texts, day_pairs.
  generalize (filter (selected is_male) (range 10000)). intros ns.
  rewrite map_map. reflexivity.
Qed.

Lemma emitted_before_irrefl (e : datetime * Z) : ~ emitted_before e e.
Proof.
  unfold emitted_before. rewrite lt_irrefl. intros [H | [_ H]];
    [discriminate | lia].
Qed.

Lemma flat_day_texts_parity (is_male : bool) (days : list datetime) :
  Forall (fun pesel => Z.odd (decimal_value (seq_sex_block pesel)) = is_male)
         (flat_map (day_texts (Some is_male)) days).
Proof.
  apply Forall_forall. intros pesel Hin.
  apply in_flat_day_texts in Hin. destruct Hin as (d & n & _ & _ & ->).
  rewrite seq_sex_block_value. apply encoded_seq_parity.
Qed.

Lemma progress_chunk_not_well_formed (chunk : string) :
  progress_chunk chunk -> ~ well_formed chunk.
Proof.
  intros [-> | (rest & ->)] (Hlen & Hdigits & _); discriminate.
Qed.

(* ================================================================= *)
(** ** More on the command line *)

Lemma fold_print (pesels : list string) (w : world) :
  fold_left (fun w pesel => print pesel w) pesels w
  = mkworld_on (w.(stdout) ++ pesel_lines pesels) w.(stdin) w.(files)
               w.(disk).
Proof.
  revert w. induction pesels as [| pesel pesels IH]; intros w;
    cbn [fold_left pesel_lines map].
  - rewrite app_nil_r. destruct w. reflexivity.
  - rewrite IH. unfold print, print_end. cbn [stdout stdin files disk].
    rewrite <- app_assoc. reflexivity.
Qed.


(** [main] up to the call of the enumerator, for years it accepts. *)
Lemma main_reaches_enumerator (args : Args.t) (w : world) :
  1800 <= args.(Args.start_year) ->
  args.(Args.start_year) <= effective_end_year args ->
  effective_end_year args <= 2299 ->
  exists (headers chunks : list string) (w1 : world),
    console_grew (headers ++ chunks) w w1
    /\ main args w
       = (let pesels :=
            flat_map (day_texts (sex_filter args))
                     (range_days args.(Args.start_year)
                                 (effective_end_year args)) in
          let count := str (Z.of_nat (List.length pesels)) in
          match args.(Args.output) with
          | Some (String c path' as path) =>
              let save (w : world) : result world :=
                w <- write_file path
                       (map (fun pesel => (pesel ++ nl)%string) pesels) w ;;
                Ok (print ("Generated " ++ count
                             ++ " PESEL numbers and saved to " ++ path)%string
                          w) in
              if path_exists path w1
              then
                answer <- input ("File " ++ path
                                   ++ " already exists. Overwrite? [y/N] ")%string
                                w1 ;;
                let response := fst answer in
                let w := snd answer in
                if negb (String.eqb (lower response) "y")
                then Ok (print "Operation cancelled." w)
                else save w
              else save w1
          | _ =>
              let w := fold_left (fun w pesel => print pesel w) pesels w1 in
              Ok (print (nl ++ "Generated " ++ count ++ " PESEL numbers")%string
                        w)
          end).
Proof.
  intros Hlow Horder Hhigh. unfold main, effective_end_year in *.
  cbv zeta.
  set (end_year := match Args.end_year args with
                   | Some e => e
                   | None => Args.start_year args
                   end) in *.
  replace ((Args.start_year args <? 1800) || (end_year >? 2299)) with false
    by lia.
  replace (Args.start_year args >? end_year) with false by lia.
  match goal with
  | |- context [generate_pesels_for_year_range _ _ ?f ?wh] =>
      set (w_h := wh); change f with (sex_filter args)
  end.
  assert (Hheaders : exists headers, console_grew headers w w_h).
  { subst w_h. unfold console_grew, print, print_end.
    destruct (Args.sex args) as [[|] |]; cbn [stdout stdin files disk];
      eexists; repeat split; try reflexivity;
      rewrite <- ?app_assoc; reflexivity. }
  destruct Hheaders as (headers & Hheaders).
  destruct (generate_pesels_for_year_range_texts (Args.start_year args) end_year
              (sex_filter args) w_h ltac:(lia) ltac:(lia)) as (w1 & Hrun).
  destruct (run_generate_console _ _ _ _ _ _ _ Hrun) as (chunks & _ & Hgrew).
  exists headers, chunks, w1.
  split; [eapply console_grew_trans; eassumption |].
  rewrite Hrun. cbn [bind fst snd]. reflexivity.
Qed.

Lemma enumerated_list_of (args : Args.t) (w : world) :
  1800 <= args.(Args.start_year) ->
  args.(Args.start_year) <= effective_end_year args ->
  effective_end_year args <= 2299 ->
  fmap fst (generate_pesels_for_year_range
              args.(Args.start_year) (effective_end_year args)
              (sex_filter args) w)
  = Ok (flat_map (day_texts (sex_filter args))
                 (range_days args.(Args.start_year) (effective_end_year args))).
Proof.
  intros Hlow Horder Hhigh.
  destruct (generate_pesels_for_year_range_texts
              args.(Args.start_year) (effective_end_year args)
              (sex_filter args) w ltac:(lia) ltac:(lia)) as (w2 & ->).
  reflexivity.
Qed.

(* ================================================================= *)
(** ** The Encoder: claims *)

(** C1: for every valid date, every sequential number and either sex,
    [generate_pesel_for_date] returns exactly 11 ASCII digits, and the
    weighted checksum (weights 1 3 7 9 1 3 7 9 1 3, check digit
    [(10 - (sum mod 10)) mod 10]) of the first 10 digits is the 11th
    digit. *)
Theorem encode_eleven_digits_with_checksum
        (d : datetime) (n : Z) (is_male : bool) :
  valid_date d ->
  exists pesel : string,
    generate_pesel_for_date d n is_male = Ok pesel
    /\ String.length pesel = 11%nat
    /\ all_digits pesel = true
    /\ calculate_check_digit (substring 0 10 pesel)
       = Ok (checksum_formula (digit_values (substring 0 10 pesel)))
    /\ digit_values (check_field pesel)
       = [checksum_formula (digit_values (substring 0 10 pesel))].
Proof.
  intros Hd. exists (pesel_text d n is_male).
  split; [apply generate_pesel_for_date_text, Hd |].
  split; [apply pesel_text_length |].
  split; [apply pesel_text_all_digits, Hd |].
  rewrite (pesel_text_base_digits d n is_male Hd).
  pose proof (checksum_formula_range (base_digits d n is_male)) as Hcheck.
  split.
  - pose proof (base_digits_range d n is_male Hd) as Hdigits.
    unfold base_digits in Hdigits |- *.
    repeat match type of Hdigits with
           | Forall _ (_ :: _) =>
               let Hhead := fresh "Hv" in
               apply Forall_cons_iff in Hdigits; destruct Hdigits as [Hhead Hdigits]
           end.
    change (substring 0 10 (pesel_text d n is_male))
      with (two_digits (d.(year) mod 100) ++ two_digits (encoded_month d)
              ++ two_digits d.(day) ++ four_digits (encoded_seq n is_male))%string.
    unfold two_digits, four_digits. cbn [String.append].
    apply calculate_check_digit_chars; apply int_of_char_digit; assumption.
  - change (check_field (pesel_text d n is_male))
      with (String (digit_char (checksum_formula (base_digits d n is_male)))
                   EmptyString).
    rewrite digit_values_digit_char by exact Hcheck. reflexivity.
Qed.

Lemma encode_eleven_digits_with_checksum_witness :
  valid_date (mkdate 1999 1 1)
  /\ exists pesel : string,
      generate_pesel_for_date (mkdate 1999 1 1) 42 true = Ok pesel
      /\ String.length pesel = 11%nat
      /\ all_digits pesel = true
      /\ calculate_check_digit (substring 0 10 pesel)
         = Ok (checksum_formula (digit_values (substring 0 10 pesel)))
      /\ digit_values (check_field pesel)
         = [checksum_formula (digit_values (substring 0 10 pesel))].
Proof.
  assert (Hd : valid_date (mkdate 1999 1 1)) by valid_date_by_computation.
  split; [exact Hd |].
  apply (encode_eleven_digits_with_checksum (mkdate 1999 1 1) 42 true Hd).
Defined.

(** C2: for every valid date, every sequential number and either sex, the
    value of the 4-digit seq/sex block of the identifier is odd exactly
    when male was requested and even exactly when female was, whether or
    not the sequential number had to be adjusted. *)
Theorem seq_sex_block_parity_matches_sex
        (d : datetime) (n : Z) (is_male : bool) :
  valid_date d ->
  exists pesel : string,
    generate_pesel_for_date d n is_male = Ok pesel
    /\ (decimal_value (seq_sex_block pesel) mod 2 = 1 <-> is_male = true)
    /\ (decimal_value (seq_sex_block pesel) mod 2 = 0 <-> is_male = false).
Proof.
  intros Hd. exists (pesel_text d n is_male).
  split; [apply generate_pesel_for_date_text, Hd |].
  rewrite seq_sex_block_value.
  pose proof (encoded_seq_parity n is_male) as Hparity.
  rewrite Zodd_mod in Hparity.
  pose proof (Z.mod_pos_bound (encoded_seq n is_male) 2 ltac:(lia)) as Hbound.
  destruct is_male.
  - apply Z.eqb_eq in Hparity. split; split; intros H; try reflexivity;
      try discriminate; lia.
  - apply Z.eqb_neq in Hparity. split; split; intros H; try reflexivity;
      try discriminate; lia.
Qed.

Lemma seq_sex_block_parity_matches_sex_witness :
  valid_date (mkdate 2024 2 29)
  /\ exists pesel : string,
      generate_pesel_for_date (mkdate 2024 2 29) 9998 true = Ok pesel
      /\ (decimal_value (seq_sex_block pesel) mod 2 = 1 <-> true = true)
      /\ (decimal_value (seq_sex_block pesel) mod 2 = 0 <-> true = false).
Proof.
  assert (Hd : valid_date (mkdate 2024 2 29)) by valid_date_by_computation.
  split; [exact Hd |].
  apply (seq_sex_block_parity_matches_sex (mkdate 2024 2 29) 9998 true Hd).
Defined.

(** C3, as the specification states it, fails on 2000-01-01: the code adds
    20 to the month of every year from 2000 to 2099, so that date carries
    month 21, not 01. *)
Lemma month_of_2000_01_01_is_21_not_01 :
  exists pesel : string,
    generate_pesel_for_date (mkdate 2000 1 1) 0 true = Ok pesel
    /\ month_field pesel = "21"%string
    /\ month_field pesel <> "01"%string.
Proof.
  exists "00210100011"%string.
  split; [vm_compute; reflexivity |].
  split; [reflexivity | discriminate].
Qed.

(** C3, amended: the date block is YY = year mod 100, MM' = the month plus
    the offset of the year's century (+80 for 1800-1899, +0 for 1900-1999,
    +20 for 2000-2099, +40 for 2100-2199, +60 for 2200-2299) and DD = the
    day, each zero-padded to two digits; in particular 1800-01-01 carries
    month 81, 1900-01-01 month 01, 2000-01-01 and 2020-01-01 month 21, and
    2100-01-01 month 41. *)
Theorem month_encoding_exact
        (d : datetime) (n : Z) (is_male : bool) (offset : Z) :
  valid_date d ->
  month_offset d.(year) = Some offset ->
  (exists pesel : string,
      generate_pesel_for_date d n is_male = Ok pesel
      /\ date_block pesel = format_date_for_pesel d
      /\ date_block pesel
         = (format_0d 2 (d.(year) mod 100)
              ++ format_0d 2 (d.(month) + offset)
              ++ format_0d 2 d.(day))%string
      /\ String.length (date_block pesel) = 6%nat)
  /\ (forall y, 1800 <= y <= 1899 -> month_offset y = Some 80)
  /\ (forall y, 1900 <= y <= 1999 -> month_offset y = Some 0)
  /\ (forall y, 2000 <= y <= 2099 -> month_offset y = Some 20)
  /\ (forall y, 2100 <= y <= 2199 -> month_offset y = Some 40)
  /\ (forall y, 2200 <= y <= 2299 -> month_offset y = Some 60)
  /\ fmap month_field (generate_pesel_for_date (mkdate 1800 1 1) n is_male)
     = Ok "81"%string
  /\ fmap month_field (generate_pesel_for_date (mkdate 1900 1 1) n is_male)
     = Ok "01"%string
  /\ fmap month_field (generate_pesel_for_date (mkdate 2000 1 1) n is_male)
     = Ok "21"%string
  /\ fmap month_field (generate_pesel_for_date (mkdate 2020 1 1) n is_male)
     = Ok "21"%string
  /\ fmap month_field (generate_pesel_for_date (mkdate 2100 1 1) n is_male)
     = Ok "41"%string.
Proof.
  intros Hd Hoffset.
  assert (Hexample : forall d', valid_date d' ->
            fmap month_field (generate_pesel_for_date d' n is_male)
            = Ok (two_digits (encoded_month d'))).
  { intros d' Hd'. rewrite generate_pesel_for_date_text by exact Hd'.
    reflexivity. }
  assert (Hband : forall first last y, first <= y <= last ->
            ((first <=? y) && (y <=? last)) = true).
  { intros first last y Hy. apply andb_true_iff.
    split; apply Z.leb_le; lia. }
  assert (Hout : forall first last y, y < first \/ last < y ->
            ((first <=? y) && (y <=? last)) = false).
  { intros first last y Hy. apply andb_false_iff.
    destruct Hy; [left; apply Z.leb_gt | right; apply Z.leb_gt]; lia. }
  split.
  - exists (pesel_text d n is_male).
    split; [apply generate_pesel_for_date_text, Hd |].
    rewrite pesel_text_date_block, (format_date_for_pesel_fields d Hd).
    split; [reflexivity |]. split; [| reflexivity].
    destruct Hd as (Hy & Hm & Hday).
    pose proof (days_in_month_range d.(year) d.(month) Hm) as Hdim.
    pose proof (encoded_month_range d Hm) as Hem.
    pose proof (Z.mod_pos_bound d.(year) 100 ltac:(lia)) as Hyy.
    unfold encoded_month in *. rewrite Hoffset in *.
    rewrite !format_0d_2 by lia. reflexivity.
  - unfold month_offset, month_offset_table, lookup_offset.
    repeat split.
    + intros y Hy. rewrite (Hband 1800 1899 y Hy). reflexivity.
    + intros y Hy. rewrite (Hout 1800 1899 y), (Hband 1900 1999 y) by lia.
      reflexivity.
    + intros y Hy. rewrite (Hout 1800 1899 y), (Hout 1900 1999 y),
        (Hband 2000 2099 y) by lia. reflexivity.
    + intros y Hy. rewrite (Hout 1800 1899 y), (Hout 1900 1999 y),
        (Hout 2000 2099 y), (Hband 2100 2199 y) by lia. reflexivity.
    + intros y Hy. rewrite (Hout 1800 1899 y), (Hout 1900 1999 y),
        (Hout 2000 2099 y), (Hout 2100 2199 y), (Hband 2200 2299 y) by lia.
      reflexivity.
    + apply (Hexample (mkdate 1800 1 1)). valid_date_by_computation.
    + apply (Hexample (mkdate 1900 1 1)). valid_date_by_computation.
    + apply (Hexample (mkdate 2000 1 1)). valid_date_by_computation.
    + apply (Hexample (mkdate 2020 1 1)). valid_date_by_computation.
    + apply (Hexample (mkdate 2100 1 1)). valid_date_by_computation.
Qed.

Lemma month_encoding_exact_witness :
  valid_date (mkdate 2020 1 1)
  /\ month_offset 2020 = Some 20
  /\ exists pesel : string,
      generate_pesel_for_date (mkdate 2020 1 1) 7 true = Ok pesel
      /\ date_block pesel = "202101"%string.
Proof.
  assert (Hd : valid_date (mkdate 2020 1 1)) by valid_date_by_computation.
  assert (Hoffset : month_offset 2020 = Some 20) by reflexivity.
  split; [exact Hd |]. split; [exact Hoffset |].
  destruct (month_encoding_exact (mkdate 2020 1 1) 7 true 20 Hd Hoffset)
    as ((pesel & Hrun & _ & Hblock & _) & _).
  exists pesel. split; [exact Hrun | exact Hblock].
Defined.

(** C4: for every integer sequential number and either sex, the encoder
    first clamps the number into [0, 9999] and then, when its parity does
    not match the requested sex, moves it by +1 for male or -1 for female;
    the four digits spell that value, which stays within [0, 9999], and
    9999 requested as female gives 9998. *)
Theorem seq_clamped_then_adjusted (n : Z) (is_male : bool) :
  generate_sequential_and_sex_digits n is_male
  = format_0d 4 (adjust (clamp n) is_male)
  /\ decimal_value (generate_sequential_and_sex_digits n is_male)
     = adjust (clamp n) is_male
  /\ 0 <= adjust (clamp n) is_male <= 9999
  /\ adjust (clamp 9999) false = 9998
  /\ generate_sequential_and_sex_digits 9999 false = "9998"%string.
Proof.
  pose proof (encoded_seq_range n is_male) as Hrange.
  split; [apply generate_sequential_and_sex_digits_encoded |].
  split.
  - rewrite generate_sequential_and_sex_digits_four.
    unfold encoded_seq in *.
    apply decimal_value_four_digits. lia.
  - unfold encoded_seq in Hrange.
    split; [exact Hrange |]. split; reflexivity.
Qed.

(* ================================================================= *)
(** ** The Range Enumerator: claims *)



(** C6: the enumerator emits in a fixed order.  Its output is the encoding,
    element by element, of a list of (date, sequential number) pairs that
    is strictly ascending by date and, within a date, by sequential number,
    and that holds exactly the pairs of every calendar day from January 1
    of the start year to December 31 of the end year with every sequential
    number 0..9999 the filter keeps; the days follow each other one day at
    a time. *)
Theorem emission_order_by_date_then_seq
        (start_year end_year : Z) (is_male : option bool) (w : world) :
  1 <= start_year <= 9999 -> 1 <= end_year <= 9998 ->
  exists (emitted : list (datetime * Z)) (days : list datetime)
         (pesels : list string) (w' : world),
    generate_pesels_for_year_range start_year end_year is_male w
    = Ok (pesels, w')
    /\ Forall2 (fun e pesel =>
                  generate_pesel_for_date (fst e) (snd e)
                                          (sex_of is_male (snd e))
                  = Ok pesel)
               emitted pesels
    /\ StronglySorted emitted_before emitted
    /\ (forall d n,
           In (d, n) emitted
           <-> valid_date d
               /\ Datetime.le (mkdate start_year 1 1) d = true
               /\ Datetime.le d (mkdate end_year 12 31) = true
               /\ 0 <= n <= 9999 /\ selected is_male n = true)
    /\ emitted = flat_map (day_pairs is_male) days
    /\ (forall i d1 d2,
           nth_error days i = Some d1 -> nth_error days (S i) = Some d2 ->
           Datetime.add_one_day d1 = Ok d2).
Proof.
  intros Hs He.
  destruct (generate_pesels_for_year_range_texts start_year end_year is_male w
              Hs He) as (w' & Hrun).
  exists (emitted_pairs is_male start_year end_year),
    (range_days start_year end_year),
    (flat_map (day_texts is_male) (range_days start_year end_year)), w'.
  split; [exact Hrun |].
  split; [apply flat_day_texts_sources, range_days_valid; assumption |].
  split; [apply flat_day_pairs_sorted, range_days_sorted; assumption |].
  split; [intros d n; apply in_emitted_pairs; assumption |].
  split; [reflexivity |].
  intros i d1 d2 H1 H2.
  rewrite (days_from_consecutive _ _ _ _ _ H1 H2).
  assert (Hin1 : In d1 (range_days start_year end_year))
    by (eapply nth_error_In; exact H1).
  apply (in_range_days start_year end_year d1 Hs He) in Hin1.
  destruct Hin1 as (Hd1 & _ & Hle). apply le_year in Hle.
  apply add_one_day_next_day; [exact Hd1 | cbn [last_day year] in Hle; lia].
Qed.

Lemma emission_order_by_date_then_seq_witness :
  1 <= 1999 <= 9999 /\ 1 <= 2000 <= 9998
  /\ exists (pesels : list string) (w' : world),
      generate_pesels_for_year_range 1999 2000 (Some false)
                                     (mkworld [] [] [])
      = Ok (pesels, w').
Proof.
  assert (Hs : 1 <= 1999 <= 9999) by lia.
  assert (He : 1 <= 2000 <= 9998) by lia.
  split; [exact Hs |]. split; [exact He |].
  destruct (emission_order_by_date_then_seq 1999 2000 (Some false)
              (mkworld [] [] []) Hs He)
    as (emitted & days & pesels & w' & Hrun & _).
  exists pesels, w'. exact Hrun.
Defined.




(** C8: the enumerator is deterministic across runs.  Whatever the console,
    the keyboard and the files hold when it is called, in particular
    whatever an earlier call left there, a call with the same start year,
    end year and sex filter ends the same way: it returns the same list,
    element for element and in the same order, or raises the same
    exception. *)
Theorem enumeration_is_repeatable
        (start_year end_year : Z) (is_male : option bool) (w1 w2 : world) :
  fmap fst (generate_pesels_for_year_range start_year end_year is_male w1)
  = fmap fst (generate_pesels_for_year_range start_year end_year is_male w2).
Proof.
  unfold generate_pesels_for_year_range.
  apply same_outcome_fmap, run_generate_same.
Qed.

(** C9, as the specification states it, fails: for the year 1999 without a
    filter, at no point of the run does the caller hold an identifier while
    the result set is incomplete.  The list it receives has all 3650000
    identifiers of the year. *)
Lemma year_1999_is_not_streamed :
  Z.of_nat (List.length
              (available (generate_pesels_for_year_range 1999 1999 None
                            (mkworld [] [] [])))) = 3650000
  /\ ~ streams_lazily 1999 1999 None (mkworld [] [] []).
Proof.
  split.
  - destruct (generate_pesels_for_year_range_texts 1999 1999 None
                (mkworld [] [] []) ltac:(lia) ltac:(lia)) as (w' & ->).
    cbn [available]. rewrite flat_day_texts_length.
    unfold range_days. rewrite days_from_length. reflexivity.
  - intros (fuel & Hsome & Hpartial).
    destruct (run_generate_all_or_nothing fuel 1999 1999 None
                (mkworld [] [] []) ltac:(lia) ltac:(lia)) as [Hnone | Hall];
      [exact (Hsome Hnone) | exact (Hpartial Hall)].
Qed.

(** C9, amended: the enumerator is eager.  It builds the whole result in a
    list and hands that list over when the loop has finished: with a
    budget of loop tests that does not cover every day of the range the
    caller holds nothing, and with any larger budget the caller receives
    the complete list, [per_day] identifiers for each day of the range. *)
Theorem enumeration_is_eager
        (start_year end_year : Z) (is_male : option bool) (w : world)
        (fuel : nat) :
  1 <= start_year <= 9999 -> 1 <= end_year <= 9998 ->
  ((fuel <= day_count start_year end_year)%nat ->
   run_generate_pesels_for_year_range fuel start_year end_year is_male w
   = OutOfFuel)
  /\ ((day_count start_year end_year < fuel)%nat ->
      exists (pesels : list string) (w' : world),
        run_generate_pesels_for_year_range fuel start_year end_year is_male w
        = Ok (pesels, w')
        /\ available (generate_pesels_for_year_range start_year end_year
                        is_male w) = pesels
        /\ Z.of_nat (List.length pesels)
           = per_day is_male * Z.of_nat (day_count start_year end_year))
  /\ ~ streams_lazily start_year end_year is_male w.
Proof.
  intros Hs He. split; [| split].
  - intros Hshort. apply run_generate_unfinished; assumption.
  - intros Hlong.
    destruct (run_generate_finishes fuel start_year end_year is_male w
                Hs He Hlong) as (w' & Hrun).
    destruct (generate_pesels_for_year_range_texts start_year end_year
                is_male w Hs He) as (w'' & Hall).
    exists (flat_map (day_texts is_male) (range_days start_year end_year)), w'.
    split; [exact Hrun |]. split; [rewrite Hall; reflexivity |].
    rewrite flat_day_texts_length. unfold range_days.
    rewrite days_from_length. reflexivity.
  - intros (fuel' & Hsome & Hpartial).
    destruct (run_generate_all_or_nothing fuel' start_year end_year is_male w
                Hs He) as [Hnone | Hall];
      [exact (Hsome Hnone) | exact (Hpartial Hall)].
Qed.

Lemma enumeration_is_eager_witness :
  1 <= 1999 <= 9999 /\ 1 <= 1999 <= 9998
  /\ ((3 <= day_count 1999 1999)%nat ->
      run_generate_pesels_for_year_range 3 1999 1999 None (mkworld [] [] [])
      = OutOfFuel)
  /\ ~ streams_lazily 1999 1999 None (mkworld [] [] []).
Proof.
  assert (Hs : 1 <= 1999 <= 9999) by lia.
  assert (He : 1 <= 1999 <= 9998) by lia.
  split; [exact Hs |]. split; [exact He |].
  destruct (enumeration_is_eager 1999 1999 None (mkworld [] [] []) 3 Hs He)
    as (Hshort & _ & Heager).
  split; [exact Hshort | exact Heager].
Defined.

(** C10: for every year range, the male-filtered output is the subsequence
    of the unfiltered output at the odd sequential numbers and the
    female-filtered output the subsequence at the even ones; where the
    filter agrees with a number's own parity both runs encode the same
    (date, sequential number, sex) triple. *)
Theorem filtered_output_is_subsequence_of_unfiltered
        (start_year end_year : Z) (w : world) :
  1 <= start_year <= 9999 -> 1 <= end_year <= 9998 ->
  (exists (everyone males females : list string) (w0 w1 w2 : world),
      generate_pesels_for_year_range start_year end_year None w
      = Ok (everyone, w0)
      /\ generate_pesels_for_year_range start_year end_year (Some true) w
         = Ok (males, w1)
      /\ generate_pesels_for_year_range start_year end_year (Some false) w
         = Ok (females, w2)
      /\ males = at_sequential_numbers Z.odd everyone
      /\ females = at_sequential_numbers Z.even everyone)
  /\ (forall d n, Z.odd n = true ->
        generate_pesel_for_date d n true
        = generate_pesel_for_date d n (n mod 2 =? 1))
  /\ (forall d n, Z.even n = true ->
        generate_pesel_for_date d n false
        = generate_pesel_for_date d n (n mod 2 =? 1)).
Proof.
  intros Hs He. split; [| split].
  - destruct (generate_pesels_for_year_range_texts start_year end_year None w
                Hs He) as (w0 & H0).
    destruct (generate_pesels_for_year_range_texts start_year end_year
                (Some true) w Hs He) as (w1 & H1).
    destruct (generate_pesels_for_year_range_texts start_year end_year
                (Some false) w Hs He) as (w2 & H2).
    eexists _, _, _, w0, w1, w2.
    split; [exact H0 |]. split; [exact H1 |]. split; [exact H2 |].
    unfold at_sequential_numbers. split.
    + rewrite <- (keep_positions_days true (range_days start_year end_year) 0)
        by reflexivity.
      apply keep_positions_ext. intros i. cbn [selected].
      destruct (Z.odd (Z.of_nat i mod 10000)); reflexivity.
    + rewrite <- (keep_positions_days false (range_days start_year end_year) 0)
        by reflexivity.
      apply keep_positions_ext. intros i. cbn [selected].
      rewrite <- Z.negb_odd.
      destruct (Z.odd (Z.of_nat i mod 10000)); reflexivity.
  - intros d n Hodd. rewrite odd_mod_2, Hodd. reflexivity.
  - intros d n Heven. rewrite odd_mod_2, <- Z.negb_even, Heven. reflexivity.
Qed.

Lemma filtered_output_is_subsequence_of_unfiltered_witness :
  1 <= 1999 <= 9999 /\ 1 <= 1999 <= 9998
  /\ exists (everyone males : list string) (w0 w1 : world),
      generate_pesels_for_year_range 1999 1999 None (mkworld [] [] [])
      = Ok (everyone, w0)
      /\ generate_pesels_for_year_range 1999 1999 (Some true)
                                        (mkworld [] [] [])
         = Ok (males, w1)
      /\ males = at_sequential_numbers Z.odd everyone.
Proof.
  assert (Hs : 1 <= 1999 <= 9999) by lia.
  assert (He : 1 <= 1999 <= 9998) by lia.
  split; [exact Hs |]. split; [exact He |].
  destruct (filtered_output_is_subsequence_of_unfiltered 1999 1999
              (mkworld [] [] []) Hs He)
    as ((everyone & males & females & w0 & w1 & w2 & H0 & H1 & _ & Hm & _) & _).
  exists everyone, males, w0, w1.
  split; [exact H0 |]. split; [exact H1 | exact Hm].
Defined.

(* ================================================================= *)
(** ** Further properties of the Encoder *)

(** X1: on a string of ASCII characters [calculate_check_digit] reads the
    first ten characters from left to right and nothing after them.  It
    raises ValueError exactly when one of the characters it reaches is not
    a digit, IndexError exactly when the string is all digits but shorter
    than ten, and otherwise returns the weighted checksum of the first ten
    digits. *)
Theorem check_digit_outcomes (s : string) :
  ascii_only s = true ->
  (calculate_check_digit s = Raise ValueError
   <-> all_digits (substring 0 10 s) = false)
  /\ (calculate_check_digit s = Raise IndexError
      <-> all_digits (substring 0 10 s) = true /\ (String.length s < 10)%nat)
  /\ (forall c : Z,
         calculate_check_digit s = Ok c
         <-> all_digits (substring 0 10 s) = true
             /\ (10 <= String.length s)%nat
             /\ c = checksum_formula (digit_values (substring 0 10 s))).
Proof.
  intros _. rewrite calculate_check_digit_cases.
  destruct (all_digits (substring 0 10 s)); cbn [negb].
  - destruct (Nat.ltb_spec (String.length s) 10) as [Hshort | Hlong].
    + split; [split; intros H; discriminate |].
      split; [split; [intros _; split; [reflexivity | exact Hshort]
                     | reflexivity] |].
      intros c. split; [discriminate |]. intros (_ & Hlen & _). lia.
    + split; [split; intros H; discriminate |].
      split; [split; [discriminate | intros (_ & Hlen); lia] |].
      intros c. split.
      * intros H. apply Ok_inj in H. auto.
      * intros (_ & _ & ->). reflexivity.
  - split; [split; reflexivity |].
    split; [split; [discriminate | intros (H & _); discriminate] |].
    intros c. split; [discriminate | intros (H & _); discriminate].
Qed.

Lemma check_digit_outcomes_witness :
  ascii_only "44051401x5" = true
  /\ calculate_check_digit "44051401x5" = Raise ValueError
  /\ ascii_only "44051401" = true
  /\ calculate_check_digit "44051401" = Raise IndexError
  /\ ascii_only "4405140135 and more" = true
  /\ calculate_check_digit "4405140135 and more" = Ok 9.
Proof.
  assert (H1 : ascii_only "44051401x5" = true) by reflexivity.
  assert (H2 : ascii_only "44051401" = true) by reflexivity.
  assert (H3 : ascii_only "4405140135 and more" = true) by reflexivity.
  split; [exact H1 |].
  split; [apply (check_digit_outcomes "44051401x5" H1); reflexivity |].
  split; [exact H2 |].
  split; [apply (check_digit_outcomes "44051401" H2); split;
          [reflexivity | cbn; lia] |].
  split; [exact H3 |].
  apply (check_digit_outcomes "4405140135 and more" H3).
  split; [reflexivity |]. split; [cbn; lia | reflexivity].
Defined.

(** X2: the check digit detects every single-digit error: two strings of
    ASCII characters the function accepts whose first ten characters
    differ in exactly one position get different check digits. *)
Theorem check_digit_detects_single_digit_error
        (s s' : string) (c c' : Z) (i : nat) :
  ascii_only s = true -> ascii_only s' = true ->
  calculate_check_digit s = Ok c ->
  calculate_check_digit s' = Ok c' ->
  (i < 10)%nat ->
  String.get i s <> String.get i s' ->
  (forall j, (j < 10)%nat -> j <> i -> String.get j s = String.get j s') ->
  c <> c'.
Proof.
  intros _ _ Hs Hs' Hi Hdiff Hsame.
  apply calculate_check_digit_ok_inv in Hs, Hs'.
  destruct Hs as (a0 & a1 & a2 & a3 & a4 & a5 & a6 & a7 & a8 & a9 & rest
                  & -> & Ha & ->).
  destruct Hs' as (b0 & b1 & b2 & b3 & b4 & b5 & b6 & b7 & b8 & b9 & rest'
                   & -> & Hb & ->).
  repeat match goal with
         | H : Forall _ (_ :: _) |- _ =>
             let Hhead := fresh "Hdigit" in
             apply Forall_cons_iff in H; destruct H as [Hhead H];
             apply is_digit_value in Hhead
         end.
  unfold checksum_formula. cbn [map weighted_sum].
  destruct i as [| [| [| [| [| [| [| [| [| [| i]]]]]]]]]]; [.. | lia];
    cbn [String.get] in Hdiff;
    same_char Hsame 0%nat; same_char Hsame 1%nat; same_char Hsame 2%nat;
    same_char Hsame 3%nat; same_char Hsame 4%nat; same_char Hsame 5%nat;
    same_char Hsame 6%nat; same_char Hsame 7%nat; same_char Hsame 8%nat;
    same_char Hsame 9%nat;
    match type of Hdiff with
    | Some ?a <> Some ?b =>
        assert (Hvalue : Z.of_N (N_of_ascii a) - 48 <> Z.of_N (N_of_ascii b) - 48)
          by (intros E; apply Hdiff; f_equal; apply digit_value_inj, E)
    end;
    clear Hdiff Hsame;
    Z.to_euclidean_division_equations; lia.
Qed.

Lemma check_digit_detects_single_digit_error_witness :
  ascii_only "4405140135" = true
  /\ ascii_only "4405140136" = true
  /\ calculate_check_digit "4405140135" = Ok 9
  /\ calculate_check_digit "4405140136" = Ok 6
  /\ 9 <> 6.
Proof.
  assert (Ha : ascii_only "4405140135" = true) by reflexivity.
  assert (Ha' : ascii_only "4405140136" = true) by reflexivity.
  split; [exact Ha |]. split; [exact Ha' |].
  assert (Hs : calculate_check_digit "4405140135" = Ok 9)
    by (vm_compute; reflexivity).
  assert (Hs' : calculate_check_digit "4405140136" = Ok 6)
    by (vm_compute; reflexivity).
  split; [exact Hs |]. split; [exact Hs' |].
  apply (check_digit_detects_single_digit_error
           "4405140135" "4405140136" 9 6 9 Ha Ha' Hs Hs').
  - lia.
  - discriminate.
  - intros j Hj Hne.
    destruct j as [| [| [| [| [| [| [| [| [| [| j]]]]]]]]]];
      try reflexivity; lia.
Defined.

(** X3: every identifier the encoder produces passes the usual PESEL
    validation: its eleven digits weighted 1 3 7 9 1 3 7 9 1 3 1 sum to a
    multiple of 10. *)
Theorem generated_identifier_passes_validation
        (d : datetime) (n : Z) (is_male : bool) :
  valid_date d ->
  exists pesel : string,
    generate_pesel_for_date d n is_male = Ok pesel
    /\ weighted_sum (digit_values pesel) validation_weights mod 10 = 0.
Proof.
  intros Hd. exists (pesel_text d n is_male).
  split; [apply generate_pesel_for_date_text, Hd |].
  rewrite (pesel_text_digit_values d n is_male Hd).
  unfold checksum_formula, base_digits, validation_weights.
  cbn [app weighted_sum].
  Z.to_euclidean_division_equations. lia.
Qed.

Lemma generated_identifier_passes_validation_witness :
  valid_date (mkdate 1944 5 14)
  /\ exists pesel : string,
      generate_pesel_for_date (mkdate 1944 5 14) 135 true = Ok pesel
      /\ weighted_sum (digit_values pesel) validation_weights mod 10 = 0.
Proof.
  assert (Hd : valid_date (mkdate 1944 5 14)) by valid_date_by_computation.
  split; [exact Hd |].
  exact (generated_identifier_passes_validation (mkdate 1944 5 14) 135 true Hd).
Defined.

(** X4: within the years 1800-2299 an identifier determines what it was
    built from: two calls that return the same identifier had the same
    date, the same sex and the same clamped and adjusted sequential
    number. *)
Theorem identifier_determines_date_sex_and_number
        (d d' : datetime) (n n' : Z) (is_male is_male' : bool)
        (pesel : string) :
  valid_date d -> valid_date d' ->
  1800 <= d.(year) <= 2299 -> 1800 <= d'.(year) <= 2299 ->
  generate_pesel_for_date d n is_male = Ok pesel ->
  generate_pesel_for_date d' n' is_male' = Ok pesel ->
  d = d' /\ is_male = is_male'
  /\ adjust (clamp n) is_male = adjust (clamp n') is_male'.
Proof.
  intros Hd Hd' Hc Hc' Hrun Hrun'.
  rewrite generate_pesel_for_date_text in Hrun, Hrun' by assumption.
  apply (pesel_text_inj d d' n n' is_male is_male' Hd Hd' Hc Hc').
  apply Ok_inj. rewrite Hrun, Hrun'. reflexivity.
Qed.

Lemma identifier_determines_date_sex_and_number_witness :
  valid_date (mkdate 2000 1 1)
  /\ 1800 <= 2000 <= 2299
  /\ generate_pesel_for_date (mkdate 2000 1 1) 0 true = Ok "00210100011"%string
  /\ generate_pesel_for_date (mkdate 2000 1 1) 1 true = Ok "00210100011"%string
  /\ adjust (clamp 0) true = adjust (clamp 1) true.
Proof.
  assert (Hd : valid_date (mkdate 2000 1 1)) by valid_date_by_computation.
  assert (Hc : 1800 <= 2000 <= 2299) by lia.
  assert (H0 : generate_pesel_for_date (mkdate 2000 1 1) 0 true
               = Ok "00210100011"%string) by (vm_compute; reflexivity).
  assert (H1 : generate_pesel_for_date (mkdate 2000 1 1) 1 true
               = Ok "00210100011"%string) by (vm_compute; reflexivity).
  split; [exact Hd |]. split; [exact Hc |].
  split; [exact H0 |]. split; [exact H1 |].
  apply (identifier_determines_date_sex_and_number
           (mkdate 2000 1 1) (mkdate 2000 1 1) 0 1 true true
           "00210100011" Hd Hd Hc Hc H0 H1).
Defined.

(** X5: the encoder does not reject a year outside 1800-2299; it adds no
    offset, so such a date gets the date block, and the whole identifier,
    of the same day and month in the year 1900 + (year mod 100). *)
Theorem year_outside_table_is_encoded_as_1900s
        (d : datetime) (n : Z) (is_male : bool) :
  d.(year) < 1800 \/ 2299 < d.(year) ->
  format_date_for_pesel d
  = format_date_for_pesel (mkdate (1900 + d.(year) mod 100) d.(month) d.(day))
  /\ generate_pesel_for_date d n is_male
     = generate_pesel_for_date
         (mkdate (1900 + d.(year) mod 100) d.(month) d.(day)) n is_male.
Proof.
  intros Hout.
  assert (Hdate : format_date_for_pesel d
                  = format_date_for_pesel
                      (mkdate (1900 + d.(year) mod 100) d.(month) d.(day))).
  { unfold format_date_for_pesel. cbn [year month day]. cbv zeta.
    pose proof (Z.mod_pos_bound d.(year) 100 ltac:(lia)) as Hyy.
    replace ((1800 <=? year d) && (year d <=? 1899)) with false by lia.
    replace ((2000 <=? year d) && (year d <=? 2099)) with false by lia.
    replace ((2100 <=? year d) && (year d <=? 2199)) with false by lia.
    replace ((2200 <=? year d) && (year d <=? 2299)) with false by lia.
    replace ((1800 <=? 1900 + year d mod 100)
             && (1900 + year d mod 100 <=? 1899)) with false by lia.
    replace ((2000 <=? 1900 + year d mod 100)
             && (1900 + year d mod 100 <=? 2099)) with false by lia.
    replace ((2100 <=? 1900 + year d mod 100)
             && (1900 + year d mod 100 <=? 2199)) with false by lia.
    replace ((2200 <=? 1900 + year d mod 100)
             && (1900 + year d mod 100 <=? 2299)) with false by lia.
    replace ((1900 + year d mod 100) mod 100) with (year d mod 100)
      by (Z.to_euclidean_division_equations; lia).
    reflexivity. }
  split; [exact Hdate |].
  unfold generate_pesel_for_date. rewrite Hdate. reflexivity.
Qed.

Lemma year_outside_table_is_encoded_as_1900s_witness :
  (2345 < 1800 \/ 2299 < 2345)
  /\ generate_pesel_for_date (mkdate 2345 6 7) 8 false
     = generate_pesel_for_date (mkdate 1945 6 7) 8 false.
Proof.
  assert (Hout : year (mkdate 2345 6 7) < 1800 \/ 2299 < year (mkdate 2345 6 7))
    by (right; cbn; lia).
  split; [exact Hout |].
  exact (proj2 (year_outside_table_is_encoded_as_1900s
                  (mkdate 2345 6 7) 8 false Hout)).
Defined.

(** X6: the four digits of [generate_sequential_and_sex_digits] spell
    2 * (clamped number div 2) + (1 for male, 0 for female); they echo the
    requested number exactly when it lies in [0, 9999] and already has the
    parity of the requested sex. *)
Theorem seq_digits_value_closed_form (n : Z) (is_male : bool) :
  decimal_value (generate_sequential_and_sex_digits n is_male)
  = 2 * (clamp n / 2) + (if is_male then 1 else 0)
  /\ (decimal_value (generate_sequential_and_sex_digits n is_male) = n
      <-> 0 <= n <= 9999 /\ Z.odd n = is_male).
Proof.
  rewrite generate_sequential_and_sex_digits_four.
  pose proof (encoded_seq_range n is_male) as Hrange.
  rewrite decimal_value_four_digits by lia.
  assert (Hform : encoded_seq n is_male
                  = 2 * (clamp n / 2) + (if is_male then 1 else 0)).
  { unfold encoded_seq, adjust.
    rewrite (Zodd_mod (clamp n)).
    destruct (Z.eqb_spec (clamp n mod 2) 1) as [Hodd | Heven];
      destruct is_male; cbn [Bool.eqb];
      Z.to_euclidean_division_equations; lia. }
  split; [exact Hform |]. split.
  - intros Hecho. split; [lia |].
    rewrite <- Hecho at 1. apply encoded_seq_parity.
  - intros (Hn & <-). apply encoded_seq_own_parity, Hn.
Qed.

(* ================================================================= *)
(** ** Further properties of the Range Enumerator *)

(** X7: the enumerator itself does not reject a reversed range: for an end
    year before the start year it runs no loop iteration, returns the
    empty list and writes only a line feed. *)
Theorem enumeration_of_reversed_range_is_empty
        (start_year end_year : Z) (is_male : option bool) (w : world) :
  1 <= start_year <= 9999 -> 1 <= end_year <= 9999 ->
  end_year < start_year ->
  generate_pesels_for_year_range start_year end_year is_male w
  = Ok ([], print EmptyString w).
Proof.
  intros Hs He Hlt. unfold generate_pesels_for_year_range,
                      run_generate_pesels_for_year_range.
  rewrite new_first_day, new_last_day by lia. cbn [bind].
  unfold loop_budget. cbn [while_loop st_current_date].
  rewrite first_le_last. destruct (Z.leb_spec start_year end_year); [lia |].
  reflexivity.
Qed.

Lemma enumeration_of_reversed_range_is_empty_witness :
  1 <= 2001 <= 9999 /\ 1 <= 2000 <= 9999 /\ 2000 < 2001
  /\ generate_pesels_for_year_range 2001 2000 None (mkworld [] [] [])
     = Ok ([], mkworld [nl] [] []).
Proof.
  assert (Hs : 1 <= 2001 <= 9999) by lia.
  assert (He : 1 <= 2000 <= 9999) by lia.
  assert (Hlt : 2000 < 2001) by lia.
  split; [exact Hs |]. split; [exact He |]. split; [exact Hlt |].
  exact (enumeration_of_reversed_range_is_empty 2001 2000 None
           (mkworld [] [] []) Hs He Hlt).
Defined.

(** X8: a run over the years from [start_year] to [end_year] returns one
    identifier per kept sequential number and per day between January 1 of
    the start year and January 1 of the year after the end year: 10000 a
    day without a filter, 5000 with one; for a single year that is 365 or
    366 days' worth. *)
Theorem enumeration_size
        (start_year end_year : Z) (is_male : option bool) (w : world) :
  1 <= start_year <= 9999 -> 1 <= end_year <= 9998 ->
  start_year <= end_year ->
  exists (pesels : list string) (w' : world),
    generate_pesels_for_year_range start_year end_year is_male w
    = Ok (pesels, w')
    /\ Z.of_nat (List.length pesels)
       = per_day is_male
         * Datetime.days_between (mkdate (end_year + 1) 1 1)
                                 (mkdate start_year 1 1)
    /\ (start_year = end_year ->
        Z.of_nat (List.length pesels)
        = per_day is_male
          * (if Datetime.is_leap start_year then 366 else 365)).
Proof.
  intros Hs He Hle.
  destruct (generate_pesels_for_year_range_texts start_year end_year is_male w
              Hs He) as (w' & Hrun).
  eexists _, w'. split; [exact Hrun |].
  rewrite flat_day_texts_length. unfold range_days.
  rewrite days_from_length, (day_count_between_new_years _ _ Hs He Hle).
  split; [reflexivity |].
  intros <-. rewrite days_in_one_year. reflexivity.
Qed.

Lemma enumeration_size_witness :
  1 <= 2000 <= 9999 /\ 1 <= 2000 <= 9998 /\ 2000 <= 2000
  /\ exists (pesels : list string) (w' : world),
      generate_pesels_for_year_range 2000 2000 (Some true) (mkworld [] [] [])
      = Ok (pesels, w')
      /\ Z.of_nat (List.length pesels) = 1830000.
Proof.
  assert (Hs : 1 <= 2000 <= 9999) by lia.
  assert (He : 1 <= 2000 <= 9998) by lia.
  assert (Hle : 2000 <= 2000) by lia.
  split; [exact Hs |]. split; [exact He |]. split; [exact Hle |].
  destruct (enumeration_size 2000 2000 (Some true) (mkworld [] [] [])
              Hs He Hle) as (pesels & w' & Hrun & _ & Hyear).
  exists pesels, w'. split; [exact Hrun | exact (Hyear eq_refl)].
Defined.

(** X9: with end year 9999 the enumerator never returns a list: after
    the identifiers of 9999-12-31 it steps to the next day, which no
    [datetime] can hold, and the call ends in OverflowError. *)
Theorem enumeration_up_to_9999_overflows
        (sy : Z) (is_male : option bool) (w : world) :
  1 <= sy <= 9999 ->
  generate_pesels_for_year_range sy 9999 is_male w = Raise OverflowError.
Proof.
  intros Hs. unfold generate_pesels_for_year_range,
               run_generate_pesels_for_year_range.
  rewrite new_first_day, new_last_day by lia. cbn [bind].
  pose proof (day_count_positive sy 9999 Hs ltac:(lia) ltac:(lia)) as Hpos.
  rewrite (while_loop_overflows
             (Datetime.days_between (last_day 9999) (first_day sy) + 1)
             50 is_male ltac:(lia)
             (Z.to_nat (Datetime.days_between (last_day 9999) (first_day sy)))).
  - reflexivity.
  - cbn [st_current_date]. apply valid_first_day, Hs.
  - cbn [st_current_date]. unfold Datetime.days_between in *. lia.
  - unfold loop_budget. fold (last_day 9999). fold (first_day sy). lia.
Qed.

Lemma enumeration_up_to_9999_overflows_witness :
  1 <= 9999 <= 9999
  /\ generate_pesels_for_year_range 9999 9999 (Some true) (mkworld [] [] [])
     = Raise OverflowError.
Proof.
  assert (Hs : 1 <= 9999 <= 9999) by lia.
  split; [exact Hs |].
  exact (enumeration_up_to_9999_overflows 9999 (Some true)
           (mkworld [] [] []) Hs).
Defined.

(** X10: the only year bound the enumerator enforces is the one of
    [datetime], on the start year first and then on the end year, whatever
    the filter is: a year that is no C [int] makes the constructor raise
    OverflowError, any other year outside 1..9999 makes it raise
    ValueError, and the end year is looked at only when the start year is
    within 1..9999. *)
Theorem enumeration_rejects_years_outside_1_9999
        (sy ey : Z) (is_male : option bool) (w : world) :
  sy < 1 \/ 9999 < sy \/ ey < 1 \/ 9999 < ey ->
  generate_pesels_for_year_range sy ey is_male w
  = Raise (if (sy <? Datetime.INT_MIN) || (Datetime.INT_MAX <? sy)
           then OverflowError
           else if (sy <? 1) || (9999 <? sy) then ValueError
           else if (ey <? Datetime.INT_MIN) || (Datetime.INT_MAX <? ey)
           then OverflowError
           else ValueError).
Proof.
  intros Hbad. unfold generate_pesels_for_year_range,
                 run_generate_pesels_for_year_range.
  destruct (Z.leb_spec 1 sy) as [Hs1 |];
    [destruct (Z.leb_spec sy 9999) as [Hs2 |] |].
  - rewrite new_first_day by lia. cbn [bind].
    unfold Datetime.new, Datetime.fits_int, Datetime.INT_MIN,
      Datetime.INT_MAX, Datetime.MINYEAR, Datetime.MAXYEAR.
    replace ((sy <? -2147483648) || (2147483647 <? sy)) with false by lia.
    replace ((sy <? 1) || (9999 <? sy)) with false by lia.
    replace ((1 <=? ey) && (ey <=? 9999)) with false by lia.
    destruct (Z.leb_spec (-2147483648) ey);
      destruct (Z.leb_spec ey 2147483647);
      destruct (Z.ltb_spec ey (-2147483648));
      destruct (Z.ltb_spec 2147483647 ey); try lia; reflexivity.
  - unfold Datetime.new, Datetime.fits_int, Datetime.INT_MIN,
      Datetime.INT_MAX, Datetime.MINYEAR, Datetime.MAXYEAR.
    replace ((1 <=? sy) && (sy <=? 9999)) with false by lia.
    replace ((sy <? 1) || (9999 <? sy)) with true by lia.
    destruct (Z.leb_spec (-2147483648) sy);
      destruct (Z.leb_spec sy 2147483647);
      destruct (Z.ltb_spec sy (-2147483648));
      destruct (Z.ltb_spec 2147483647 sy); try lia; reflexivity.
  - unfold Datetime.new, Datetime.fits_int, Datetime.INT_MIN,
      Datetime.INT_MAX, Datetime.MINYEAR, Datetime.MAXYEAR.
    replace ((1 <=? sy) && (sy <=? 9999)) with false by lia.
    replace ((sy <? 1) || (9999 <? sy)) with true by lia.
    destruct (Z.leb_spec (-2147483648) sy);
      destruct (Z.leb_spec sy 2147483647);
      destruct (Z.ltb_spec sy (-2147483648));
      destruct (Z.ltb_spec 2147483647 sy); try lia; reflexivity.
Qed.

Lemma enumeration_rejects_years_outside_1_9999_witness :
  (0 < 1 \/ 9999 < 0 \/ 2000 < 1 \/ 9999 < 2000)
  /\ generate_pesels_for_year_range 0 2000 None (mkworld [] [] [])
     = Raise ValueError
  /\ (2000 < 1 \/ 9999 < 2000 \/ 2147483648 < 1 \/ 9999 < 2147483648)
  /\ generate_pesels_for_year_range 2000 2147483648 None (mkworld [] [] [])
     = Raise OverflowError.
Proof.
  assert (Hbad : 0 < 1 \/ 9999 < 0 \/ 2000 < 1 \/ 9999 < 2000) by lia.
  assert (Hbad' : 2000 < 1 \/ 9999 < 2000 \/ 2147483648 < 1
                  \/ 9999 < 2147483648) by lia.
  split; [exact Hbad |].
  split; [exact (enumeration_rejects_years_outside_1_9999 0 2000 None
                   (mkworld [] [] []) Hbad) |].
  split; [exact Hbad' |].
  exact (enumeration_rejects_years_outside_1_9999 2000 2147483648 None
           (mkworld [] [] []) Hbad').
Defined.

(** X11: for years within 1800-2299 the whole output of a run, over all
    its days, contains no identifier twice. *)
Theorem enumeration_has_no_duplicates
        (start_year end_year : Z) (is_male : option bool) (w : world) :
  1800 <= start_year <= 2299 -> 1800 <= end_year <= 2299 ->
  exists (pesels : list string) (w' : world),
    generate_pesels_for_year_range start_year end_year is_male w
    = Ok (pesels, w')
    /\ NoDup pesels.
Proof.
  intros Hs He.
  assert (Hs' : 1 <= start_year <= 9999) by lia.
  assert (He' : 1 <= end_year <= 9998) by lia.
  destruct (generate_pesels_for_year_range_texts start_year end_year is_male w
              Hs' He') as (w' & Hrun).
  eexists _, w'. split; [exact Hrun |].
  rewrite flat_day_texts_as_map. fold (emitted_pairs is_male start_year end_year).
  apply NoDup_map_on.
  - apply (StronglySorted_NoDup emitted_before); [apply emitted_before_irrefl |].
    apply flat_day_pairs_sorted, range_days_sorted; assumption.
  - intros [d n] [d' n'] Hin Hin' Heq. cbn [fst snd] in Heq.
    apply (in_emitted_pairs is_male start_year end_year d n Hs' He') in Hin.
    apply (in_emitted_pairs is_male start_year end_year d' n' Hs' He') in Hin'.
    destruct Hin as (Hd & Hfirst & Hlast & Hn & Hsel).
    destruct Hin' as (Hd' & Hfirst' & Hlast' & Hn' & Hsel').
    apply le_year in Hfirst, Hlast, Hfirst', Hlast'.
    cbn [first_day last_day year] in *.
    destruct (pesel_text_inj d d' n n' _ _ Hd Hd' ltac:(lia) ltac:(lia) Heq)
      as (-> & _ & Hseq).
    rewrite (sex_of_selected _ _ Hsel), (sex_of_selected _ _ Hsel') in Hseq.
    rewrite !encoded_seq_own_parity in Hseq by assumption.
    rewrite Hseq. reflexivity.
Qed.

Lemma enumeration_has_no_duplicates_witness :
  1800 <= 1950 <= 2299 /\ 1800 <= 2030 <= 2299
  /\ exists (pesels : list string) (w' : world),
      generate_pesels_for_year_range 1950 2030 None (mkworld [] [] [])
      = Ok (pesels, w')
      /\ NoDup pesels.
Proof.
  assert (Hs : 1800 <= 1950 <= 2299) by lia.
  assert (He : 1800 <= 2030 <= 2299) by lia.
  split; [exact Hs |]. split; [exact He |].
  exact (enumeration_has_no_duplicates 1950 2030 None (mkworld [] [] []) Hs He).
Defined.

(** X12: every identifier a run returns is well formed: eleven ASCII
    digits that pass the checksum validation. *)
Theorem every_emitted_identifier_is_well_formed
        (start_year end_year : Z) (is_male : option bool) (w : world) :
  1 <= start_year <= 9999 -> 1 <= end_year <= 9998 ->
  exists (pesels : list string) (w' : world),
    generate_pesels_for_year_range start_year end_year is_male w
    = Ok (pesels, w')
    /\ Forall well_formed pesels.
Proof.
  intros Hs He.
  destruct (generate_pesels_for_year_range_texts start_year end_year is_male w
              Hs He) as (w' & Hrun).
  eexists _, w'. split; [exact Hrun |].
  apply Forall_forall. intros pesel Hin.
  apply in_flat_day_texts in Hin. destruct Hin as (d & n & Hd & _ & ->).
  apply pesel_text_well_formed.
  apply (in_range_days start_year end_year d Hs He) in Hd. apply Hd.
Qed.

Lemma every_emitted_identifier_is_well_formed_witness :
  1 <= 1999 <= 9999 /\ 1 <= 2001 <= 9998
  /\ exists (pesels : list string) (w' : world),
      generate_pesels_for_year_range 1999 2001 (Some false) (mkworld [] [] [])
      = Ok (pesels, w')
      /\ Forall well_formed pesels.
Proof.
  assert (Hs : 1 <= 1999 <= 9999) by lia.
  assert (He : 1 <= 2001 <= 9998) by lia.
  split; [exact Hs |]. split; [exact He |].
  exact (every_emitted_identifier_is_well_formed 1999 2001 (Some false)
           (mkworld [] [] []) Hs He).
Defined.

(** X13: a male-filtered run and a female-filtered run, over the same or
    over different year ranges, never share an identifier. *)
Theorem male_and_female_outputs_are_disjoint
        (sy ey sy' ey' : Z) (w w' : world) :
  1 <= sy <= 9999 -> 1 <= ey <= 9998 ->
  1 <= sy' <= 9999 -> 1 <= ey' <= 9998 ->
  exists (males females : list string) (w1 w2 : world),
    generate_pesels_for_year_range sy ey (Some true) w = Ok (males, w1)
    /\ generate_pesels_for_year_range sy' ey' (Some false) w' = Ok (females, w2)
    /\ (forall pesel, In pesel males -> ~ In pesel females).
Proof.
  intros Hs He Hs' He'.
  destruct (generate_pesels_for_year_range_texts sy ey (Some true) w Hs He)
    as (w1 & Hmales).
  destruct (generate_pesels_for_year_range_texts sy' ey' (Some false) w' Hs' He')
    as (w2 & Hfemales).
  eexists _, _, w1, w2. split; [exact Hmales |]. split; [exact Hfemales |].
  intros pesel Hm Hf.
  pose proof (flat_day_texts_parity true (range_days sy ey)) as Hodd.
  pose proof (flat_day_texts_parity false (range_days sy' ey')) as Heven.
  rewrite Forall_forall in Hodd, Heven.
  specialize (Hodd pesel Hm). specialize (Heven pesel Hf). congruence.
Qed.

Lemma male_and_female_outputs_are_disjoint_witness :
  1 <= 1950 <= 9999 /\ 1 <= 1950 <= 9998
  /\ exists (males females : list string) (w1 w2 : world),
      generate_pesels_for_year_range 1950 1950 (Some true) (mkworld [] [] [])
      = Ok (males, w1)
      /\ generate_pesels_for_year_range 1950 1950 (Some false)
                                        (mkworld [] [] [])
         = Ok (females, w2)
      /\ (forall pesel, In pesel males -> ~ In pesel females).
Proof.
  assert (Hs : 1 <= 1950 <= 9999) by lia.
  assert (He : 1 <= 1950 <= 9998) by lia.
  split; [exact Hs |]. split; [exact He |].
  exact (male_and_female_outputs_are_disjoint 1950 1950 1950 1950
           (mkworld [] [] []) (mkworld [] [] []) Hs He Hs He).
Defined.

(** X14: whenever the enumerator returns, all it has done to the world is
    append to the console: chunks of its progress bar and one final line
    feed, none of which is an identifier; it reads nothing from the
    keyboard and leaves every file as it was. *)
Theorem enumerator_only_writes_its_progress_bar
        (start_year end_year : Z) (is_male : option bool) (w w' : world)
        (pesels : list string) :
  generate_pesels_for_year_range start_year end_year is_male w
  = Ok (pesels, w') ->
  exists chunks : list string,
    w'.(stdout) = w.(stdout) ++ chunks
    /\ w'.(stdin) = w.(stdin)
    /\ w'.(files) = w.(files)
    /\ Forall progress_chunk chunks
    /\ Forall (fun chunk => ~ well_formed chunk) chunks
    /\ last chunks EmptyString = nl.
Proof.
  unfold generate_pesels_for_year_range. intros Hrun.
  pose proof Hrun as Hagain.
  unfold run_generate_pesels_for_year_range in Hagain.
  destruct (Datetime.new start_year 1 1) as [current_date | e |];
    cbn [bind] in Hagain; [| discriminate ..].
  destruct (Datetime.new end_year 12 31) as [end_date | e |];
    cbn [bind] in Hagain; [| discriminate ..].
  match type of Hagain with
  | context [while_loop ?f ?e ?t ?b ?m ?s] =>
      destruct (while_loop f e t b m s) as [st | e' |] eqn:Hloop
  end; cbn [bind] in Hagain; [| discriminate ..].
  injection Hagain as _ <-.
  destruct (while_loop_console _ _ _ _ _ _ _ Hloop)
    as (chunks & Hall & Hout & Hin & Hfs & _).
  cbn [st_world] in Hout, Hin, Hfs.
  exists (chunks ++ [nl]).
  assert (Hall' : Forall progress_chunk (chunks ++ [nl])).
  { apply Forall_app. split; [exact Hall |].
    constructor; [left; reflexivity | constructor]. }
  unfold print, print_end. cbn [stdout stdin files disk].
  rewrite Hout, Hin, Hfs, <- app_assoc.
  repeat split; try reflexivity; try exact Hall'.
  - revert Hall'. apply Forall_impl. exact progress_chunk_not_well_formed.
  - apply last_last.
Qed.

Lemma enumerator_only_writes_its_progress_bar_witness :
  generate_pesels_for_year_range 2001 2000 (Some false)
                                 (mkworld ["earlier"%string] [] [])
  = Ok ([], mkworld ["earlier"%string; nl] [] [])
  /\ exists chunks : list string,
      ["earlier"%string; nl] = ["earlier"%string] ++ chunks
      /\ Forall progress_chunk chunks.
Proof.
  assert (Hrun : generate_pesels_for_year_range 2001 2000 (Some false)
                   (mkworld ["earlier"%string] [] [])
                 = Ok ([], mkworld ["earlier"%string; nl] [] []))
    by (vm_compute; reflexivity).
  split; [exact Hrun |].
  destruct (enumerator_only_writes_its_progress_bar _ _ _ _ _ _ Hrun)
    as (chunks & Hout & _ & _ & Hall & _).
  exists chunks. split; [exact Hout | exact Hall].
Defined.

(* ================================================================= *)
(** ** Further properties of the command line *)

(** X15: for years it accepts and no output file (none given, or the
    empty string), [main] succeeds and writes to the console, after its
    headers and the progress bar, every identifier of the range on a line
    of its own and then the count line; it reads no input and touches no
    file. *)
Theorem main_prints_every_identifier (args : Args.t) (w : world) :
  1800 <= args.(Args.start_year) ->
  args.(Args.start_year) <= effective_end_year args ->
  effective_end_year args <= 2299 ->
  args.(Args.output) = None \/ args.(Args.output) = Some EmptyString ->
  exists (pesels before : list string) (w' : world),
    fmap fst (generate_pesels_for_year_range
                args.(Args.start_year) (effective_end_year args)
                (sex_filter args) w) = Ok pesels
    /\ main args w = Ok w'
    /\ w'.(stdout)
       = w.(stdout) ++ before ++ pesel_lines pesels ++ [count_line pesels]
    /\ w'.(stdin) = w.(stdin)
    /\ w'.(files) = w.(files).
Proof.
  intros Hlow Horder Hhigh Houtput.
  destruct (main_reaches_enumerator args w Hlow Horder Hhigh)
    as (headers & chunks & w1 & (Hout & Hin & Hfs & Hdisk) & Hmain).
  cbv zeta in Hmain.
  pose proof (enumerated_list_of args w Hlow Horder Hhigh) as Hlist.
  set (pesels := flat_map (day_texts (sex_filter args))
                          (range_days args.(Args.start_year)
                                      (effective_end_year args))) in *.
  exists pesels, (headers ++ chunks).
  rewrite Hmain. clear Hmain.
  destruct Houtput as [-> | ->]; rewrite fold_print; eexists;
    (split; [exact Hlist |]); (split; [reflexivity |]);
    unfold print, print_end, count_line; cbn [stdout stdin files disk];
    rewrite Hout, Hin, Hfs, <- !app_assoc;
    repeat split; reflexivity.
Qed.

Lemma main_prints_every_identifier_witness :
  exists (pesels before : list string) (w' : world),
    main (Args.mk 1999 None None (Some Args.female)) (mkworld [] [] []) = Ok w'
    /\ w'.(stdout) = before ++ pesel_lines pesels ++ [count_line pesels].
Proof.
  destruct (main_prints_every_identifier
              (Args.mk 1999 None None (Some Args.female)) (mkworld [] [] []))
    as (pesels & before & w' & _ & Hmain & Hout & _).
  - cbn. lia.
  - cbn. lia.
  - cbn. lia.
  - left. reflexivity.
  - exists pesels, before, w'. split; [exact Hmain | exact Hout].
Defined.






